(** * node-mongodb-s3-backup: a shallow embedding of the backup pipeline

    The development follows the two source files of the repository:
    the library ([getArchiveName], [removeRF], [mongoDump],
    [friendlyFilesize], [compressDirectory], [sendToS3], [sync]) and the
    command line script that resolves the cron schedule.

    JavaScript values are modelled as the code uses them: sizes, exit
    codes, HTTP statuses and date fields are integers ([Z]); paths,
    arguments and log lines are [string]s; optional configuration fields
    are [option]s.  Asynchronous functions keep their continuation
    passing shape: a function [f(args, callback)] becomes
    [f args callback : World -> World].

    What lies outside the repository (the shell, [mongodump], [tar], the
    S3 client, the temporary directory of the system) is a parameter, the
    record [Env].  Every call to it is taken to come back: a child that
    never exits or a request that is never answered is not modelled.  A
    child's output is handled before its exit. *)

From Stdlib Require Import ZArith String Ascii List Bool Lia.
From Stdlib Require Import DecimalString DecimalZ DecimalPos.
From stdpp Require Import gmap strings list fin_maps.

Open Scope Z_scope.

(** ** JavaScript primitives used by the sources *)

Module Js.

(** [Number.prototype.toString] on an integer below 10^21: plain decimal
    digits, with a leading minus sign for negative numbers. *)
Definition dec (z : Z) : string := NilZero.string_of_int (Z.to_int z).

(** [ToInt32]: wrap into the signed 32-bit range. *)
Definition to_int32 (z : Z) : Z := (z + 2 ^ 31) mod 2 ^ 32 - 2 ^ 31.

(** The [<<] operator: the left operand is taken as an int32, only the
    low five bits of the shift count are used, and the result is
    wrapped to an int32 again. *)
Definition shl (a b : Z) : Z := to_int32 (Z.shiftl (to_int32 a) (Z.land b 31)).

(** [(a / b).toFixed(1)] for integers [a] and [b] with [0 < b].  The
    callers divide an integer below 2^53 by a power of two, which is
    exact in binary64, so the quotient is the rational [a/b].
    [toFixed(1)] picks the integer [n] closest to [10 * a/b], the larger
    one on a tie, and prints it with one digit after the point; a
    negative quotient is printed as a minus sign and the result for
    its absolute value. *)
Definition div_toFixed1 (a b : Z) : string :=
  let n := (2 * 10 * Z.abs a + b) / (2 * b) in
  (if a <? 0 then "-" else "") +:+ dec (n / 10) +:+ "." +:+ dec (n mod 10).

(** Every character of [s] satisfies [p]. *)
Fixpoint all_chars (p : ascii -> bool) (s : string) : bool :=
  match s with
  | EmptyString => true
  | String c rest => (p c && all_chars p rest)%bool
  end.

(** [String.prototype.split] with a one-character separator. *)
Fixpoint split (sep : ascii) (s : string) : list string :=
  match s with
  | EmptyString => [EmptyString]
  | String c rest =>
      if Ascii.eqb c sep then EmptyString :: split sep rest
      else match split sep rest with
           | [] => [String c EmptyString]
           | x :: xs => String c x :: xs
           end
  end.

(** [Array.prototype.join]. *)
Definition join (sep : string) (parts : list string) : string :=
  String.concat sep parts.

(** Truthiness of an optional string property: [undefined] and the
    empty string are falsy. *)
Definition truthy (v : option string) : bool :=
  match v with
  | Some s => negb (String.eqb s "")
  | None => false
  end.

(** [v || d] on an optional string property. *)
Definition or_default (v : option string) (d : string) : string :=
  match v with
  | Some s => if String.eqb s "" then d else s
  | None => d
  end.

Definition is_space (c : ascii) : bool :=
  let n := nat_of_ascii c in
  (Nat.eqb n 32 || (Nat.leb 9 n && Nat.leb n 13))%bool.

Fixpoint trim_start (s : string) : string :=
  match s with
  | String c rest => if is_space c then trim_start rest else s
  | EmptyString => EmptyString
  end.

Fixpoint trim_end (s : string) : string :=
  match s with
  | String c rest =>
      match trim_end rest with
      | EmptyString => if is_space c then EmptyString else String c EmptyString
      | r => String c r
      end
  | EmptyString => EmptyString
  end.

(** [String.prototype.trim] on a string of ASCII characters, where the
    white space is tab, line feed, vertical tab, form feed, carriage
    return and space.  Text with other characters is not trimmed by this
    function: see [String_trim]. *)
Definition trim (s : string) : string := trim_end (trim_start s).

Definition is_ascii (c : ascii) : bool := Nat.ltb (nat_of_ascii c) 128.

End Js.

(** ** The [path] module (POSIX flavour) *)

Module Path.

(** [normalizeArray]: walks the segments from the last to the first,
    dropping ["."], and letting each [".."] cancel the next kept
    segment on its left.  Returns the kept segments and the number of
    [".."] left over. *)
Fixpoint normalizeArray_go (parts : list string) : list string * nat :=
  match parts with
  | [] => ([], O)
  | p :: rest =>
      let '(kept, up) := normalizeArray_go rest in
      if String.eqb p "." then (kept, up)
      else if String.eqb p ".." then (kept, S up)
      else match up with
           | S u => (kept, u)
           | O => (p :: kept, O)
           end
  end.

Definition normalizeArray (parts : list string) (allowAboveRoot : bool)
  : list string :=
  let '(kept, up) := normalizeArray_go parts in
  if allowAboveRoot then repeat ".."%string up ++ kept else kept.

Definition charAt0_is_slash (p : string) : bool :=
  match p with
  | String c _ => Ascii.eqb c "/"
  | EmptyString => false
  end.

Fixpoint ends_with_slash (p : string) : bool :=
  match p with
  | EmptyString => false
  | String c EmptyString => Ascii.eqb c "/"
  | String _ rest => ends_with_slash rest
  end.

Definition nonempty (s : string) : bool := negb (String.eqb s "").

Definition normalize (p : string) : string :=
  let isAbsolute := charAt0_is_slash p in
  let trailingSlash := ends_with_slash p in
  let body :=
    Js.join "/" (normalizeArray (List.filter nonempty (Js.split "/" p))
                                (negb isAbsolute)) in
  let body := if (negb (nonempty body) && negb isAbsolute)%bool
              then "."%string else body in
  let body := if (nonempty body && trailingSlash)%bool
              then body +:+ "/" else body in
  (if isAbsolute then "/" else "") +:+ body.

(** [path.join(a, b)]: the non-empty arguments joined with ["/"], then
    normalized. *)
Definition join (a b : string) : string :=
  normalize (Js.join "/" (List.filter nonempty [a; b])).

End Path.

(** ** Naming and size helpers *)

(** The fields of a [Date] that [getArchiveName] reads. *)
Record Date := mkDate {
  getFullYear : Z;
  getMonth : Z;      (* 0-based *)
  getDate : Z;
  getTime : Z        (* milliseconds since the epoch *)
}.

(** [date] is what [new Date()] gives when the function is called.  The
    comment in the source announces [database_YYYY_MM_DD.tar.gz]; the code
    joins one more field, [date.getTime()]. *)
Definition getArchiveName (databaseName : string) (date : Date) : string :=
  let datestring :=
    [ databaseName;
      Js.dec (getFullYear date);
      Js.dec (getMonth date + 1);
      Js.dec (getDate date);
      Js.dec (getTime date) ] in
  Js.join "_" datestring +:+ ".tar.gz".

(** [bytes] is a file size: an integer.  [!bytes] holds exactly for 0. *)
Definition friendlyFilesize (bytes : Z) : string :=
  if bytes =? 0 then "0 B"
  else if bytes <? Js.shl 1 10 then Js.dec bytes +:+ " B"
  else if bytes <? Js.shl 1 20 then Js.div_toFixed1 bytes (Js.shl 1 10) +:+ " KiB"
  else if bytes <? Js.shl 1 30 then Js.div_toFixed1 bytes (Js.shl 1 20) +:+ " MiB"
  else if bytes <? Js.shl 1 40 then Js.div_toFixed1 bytes (Js.shl 1 30) +:+ " GiB"
  else Js.div_toFixed1 bytes (Js.shl 1 40) +:+ " TiB".

(** ** The world the pipeline runs in *)

(** A JavaScript [Error] object; [String(err)] prints ["Error: "] and the
    message. *)
Record Error := mkError { message : string }.

Definition Error_toString (e : Error) : string := "Error: " +:+ message e.

(** What the ['exit'] event of a child process carries: the exit code, or
    [null] when the process was ended by a signal. *)
Inductive ExitStatus :=
| Exited (code : Z)
| Signaled.

Definition code_toString (code : ExitStatus) : string :=
  match code with
  | Exited c => Js.dec c
  | Signaled => "null"
  end.

Inductive Stream := Stdout | Stderr.

(** What [putFile] hands to its callback: a transport error, or a response
    with its status code and the chunks of its body. *)
Inductive PutOutcome :=
| PutFailed (err : Error)
| PutResponse (statusCode : Z) (chunks : list string).

(** The file system maps each existing path to its size in bytes. *)
Abbreviation FS := (gmap string Z).

(** The calls that leave the process, each with what came back; a shell
    command and a child process also leave a file system behind.  The last
    one is for a caller of [sync] that notes the callback it receives. *)
Inductive Event :=
| EExists (path : string) (found : bool)
| EExec (command : string) (err : option Error) (fs_left : FS)
| ESpawn (program : string) (args : list string) (cwd : option string)
         (code : ExitStatus) (fs_left : FS)
| EStat (path : string) (size : option Z)
| EPutFile (bucket src dst : string) (outcome : PutOutcome)
| ECallback (err : option Error).

Module Winston.
Inductive Level := info | warn | error.
End Winston.

Record World := mkWorld {
  fs : FS;
  clock : Date;                              (* what [new Date()] reads *)
  logs : list (Winston.Level * string);      (* winston's console output *)
  trace : list Event                         (* oldest first *)
}.

Definition winston (level : Winston.Level) (msg : string) (w : World) : World :=
  mkWorld (fs w) (clock w) (logs w ++ [(level, msg)]) (trace w).

Definition emit (ev : Event) (w : World) : World :=
  mkWorld (fs w) (clock w) (logs w) (trace w ++ [ev]).

Definition with_fs (f : FS) (w : World) : World :=
  mkWorld f (clock w) (logs w) (trace w).

(** A finished child process: what it wrote, how it ended, and the file
    system it left. *)
Record ProcRun := mkProcRun {
  output : list (Stream * string);
  status : ExitStatus;
  fs_after : FS
}.

Record MongoConfig := mkMongoConfig {
  host : string;
  port : string;
  username : option string;
  password : option string;
  db : string
}.

Record S3Config := mkS3Config {
  key : string;
  secret : string;
  bucket : string;
  destination : option string
}.

(** The collaborators outside the repository.  Each one answers from the
    whole world it is called in (file system, clock and history), so that
    no behaviour of the tools is fixed in advance. *)
Record Env := mkEnv {
  os_tmpDir : string;
  (* /bin/sh -c command: the error handed to exec's callback, and the
     file system afterwards *)
  sh : string -> World -> option Error * FS;
  (* mongodump args *)
  mongodump_bin : list string -> World -> ProcRun;
  (* tar args, run in cwd *)
  tar_bin : string -> list string -> World -> ProcRun;
  (* knox client.putFile(src, dst) *)
  knox_putFile : S3Config -> string -> string -> World -> PutOutcome;
  (* String(data).trim() for a chunk with a byte outside ASCII: the
     decoding of the bytes and the Unicode white space are the runtime's *)
  trim_other : string -> string
}.

(** ** The library, in continuation passing style *)

Definition Cont := World -> World.
Definition Callback := option Error -> Cont.
Definition Task := option Callback -> Cont.

(** [callback || function() { }] *)
Definition or_noop (callback : option Callback) : Callback :=
  match callback with
  | Some cb => cb
  | None => fun _ w => w
  end.

(** [async.series(tasks, callback)] as the async library documents it:
    the tasks run one after the other, each one started by the callback
    of the one before; the first error stops the series and goes to the
    final callback, which otherwise is called once all tasks are done. *)
Fixpoint series (tasks : list Task) (callback : Callback) : Cont :=
  match tasks with
  | [] => callback None
  | task :: rest =>
      task (Some (fun err =>
                    match err with
                    | Some e => callback (Some e)
                    | None => series rest callback
                    end))
  end.

Section Library.

Variable env : Env.

Definition fs_exists (path : string) (k : bool -> Cont) : Cont := fun w =>
  let found := match fs w !! path with Some _ => true | None => false end in
  k found (emit (EExists path found) w).

Definition fs_stat (path : string) (k : option Z -> Cont) : Cont := fun w =>
  let stats := fs w !! path in
  k stats (emit (EStat path stats) w).

Definition exec (command : string) (callback : Callback) : Cont := fun w =>
  let '(err, fs') := sh env command w in
  callback err (emit (EExec command err fs') (with_fs fs' w)).

(** [spawn] and the handlers registered on the child: the data handlers
    see every chunk the process writes, then the exit handler runs. *)
Definition spawn (program : string) (args : list string)
    (cwd : option string) (run : ProcRun)
    (on_data : Stream -> string -> World -> World)
    (on_exit : ExitStatus -> Cont) : Cont := fun w =>
  let w := fold_left (fun w '(s, data) => on_data s data w) (output run) w in
  on_exit (status run)
          (emit (ESpawn program args cwd (status run) (fs_after run))
                (with_fs (fs_after run) w)).

Definition putFile (options : S3Config) (src dst : string)
    (k : PutOutcome -> Cont) : Cont := fun w =>
  let outcome := knox_putFile env options src dst w in
  k outcome (emit (EPutFile (bucket options) src dst outcome) w).

(** [String(data).trim()] for a chunk of a child's output: computed for
    ASCII text, the runtime's otherwise. *)
Definition String_trim (data : string) : string :=
  if Js.all_chars Js.is_ascii data then Js.trim data else trim_other env data.

Definition removeRF (target : string) (callback : option Callback) : Cont :=
  let callback := or_noop callback in
  fs_exists target (fun exists_ =>
    if negb exists_ then callback None
    else fun w =>
      exec ("rm -rf " +:+ target) callback
           (winston Winston.warn ("Removing " +:+ target) w)).

Definition mongoOptions (options : MongoConfig) (directory : string)
  : list string :=
  let mongoOptions :=
    [ "-h"; host options +:+ ":" +:+ port options;
      "-d"; db options;
      "-o"; directory ]%string in
  if (Js.truthy (username options) && Js.truthy (password options))%bool
  then mongoOptions
         ++ [ "-u"; Js.or_default (username options) "";
              "-p"; Js.or_default (password options) "" ]%string
  else mongoOptions.

Definition mongoDump (options : MongoConfig) (directory : string)
    (callback : option Callback) : Cont :=
  let callback := or_noop callback in
  let mongoOptions := mongoOptions options directory in
  fun w =>
    let w := winston Winston.info ("Starting mongodump of " +:+ db options) w in
    spawn "mongodump" mongoOptions None (mongodump_bin env mongoOptions w)
      (fun s data =>
         match s with
         | Stdout => winston Winston.info (String_trim data)
         | Stderr => winston Winston.error (String_trim data)
         end)
      (fun code =>
         match code with
         | Exited 0 => fun w =>
             callback None
               (winston Winston.info "mongodump executed successfully" w)
         | _ =>
             callback (Some (mkError ("Mongodump exited with code "
                                      +:+ code_toString code)))
         end) w.

Definition compressDirectory (directory input output : string)
    (callback : option Callback) : Cont :=
  let callback := or_noop callback in
  let tarOptions := [ "-zcf"%string; output; input ] in
  fun w =>
    let w := winston Winston.info
               ("Starting compression of " +:+ input +:+ " into " +:+ output) w in
    spawn "tar" tarOptions (Some directory) (tar_bin env directory tarOptions w)
      (fun s data =>
         match s with
         | Stderr => winston Winston.error data
         | Stdout => fun w => w
         end)
      (fun code =>
         match code with
         | Exited 0 =>
             fs_stat (Path.join directory output) (fun stats w =>
               let size := match stats with Some sz => sz | None => 0 end in
               callback None
                 (winston Winston.info
                    ("Successfully compressed directory ("
                     +:+ friendlyFilesize size +:+ ")") w))
         | _ =>
             callback (Some (mkError ("Tar exited with code "
                                      +:+ code_toString code)))
         end) w.

Definition sendToS3 (options : S3Config) (directory target : string)
    (callback : option Callback) : Cont :=
  let sourceFile := Path.join directory target in
  let destination := Js.or_default (destination options) "/" in
  let callback := or_noop callback in
  fun w =>
    let w := winston Winston.info
               ("Attemping to upload " +:+ target +:+ " to the "
                +:+ bucket options +:+ " s3 bucket") w in
    putFile options sourceFile (Path.join destination target) (fun res =>
      match res with
      | PutFailed err => callback (Some err)
      | PutResponse statusCode chunks => fun w =>
          (* res.on('data') *)
          let w := fold_left (fun w chunk =>
                     if negb (statusCode =? 200)
                     then winston Winston.error chunk w
                     else winston Winston.info chunk w) chunks w in
          (* res.on('end') *)
          if negb (statusCode =? 200)
          then callback (Some (mkError ("Expected a 200 response from S3, got "
                                        +:+ Js.dec statusCode))) w
          else callback None
                 (winston Winston.info "Successfully uploaded to s3" w)
      end) w.

Definition tmpDir : string := Path.join (os_tmpDir env) "mongodb_s3_backup".

(** The seven tasks handed to [async.series], for the archive name
    computed when [sync] starts. *)
Definition sync_tasks (mongodbConfig : MongoConfig) (s3Config : S3Config)
    (archiveName : string) : list Task :=
  let backupDir := Path.join tmpDir (db mongodbConfig) in
  [ removeRF backupDir;
    removeRF (Path.join tmpDir archiveName);
    mongoDump mongodbConfig tmpDir;
    compressDirectory tmpDir (db mongodbConfig) archiveName;
    sendToS3 s3Config tmpDir archiveName;
    removeRF backupDir;
    removeRF (Path.join tmpDir archiveName) ].

Definition sync (mongodbConfig : MongoConfig) (s3Config : S3Config)
    (callback : option Callback) : Cont := fun w =>
  let archiveName := getArchiveName (db mongodbConfig) (clock w) in
  let callback := or_noop callback in
  series (sync_tasks mongodbConfig s3Config archiveName)
    (fun err =>
       match err with
       | Some e => fun w =>
           callback err
             (winston Winston.error
                ("Failed during sync: " +:+ Error_toString e) w)
       | None => fun w =>
           callback err
             (winston Winston.info
                ("Successfully backed up " +:+ db mongodbConfig) w)
       end) w.

End Library.

(** ** The command line script: resolving the schedule *)

Module Script.

Record CronConfig := mkCronConfig {
  crontab : option string;
  time : option string;
  timezone : option string
}.

Record Config := mkConfig {
  mongodb : MongoConfig;
  s3 : S3Config;
  cron : option CronConfig
}.

Definition default_crontab : string := "0 0 * * *".

Inductive Num := Int (z : Z) | NaN.

Definition Num_toString (n : Num) : string :=
  match n with
  | Int z => Js.dec z
  | NaN => "NaN"
  end.

(** [Number(arg)], as [util.format] applies it for [%d], on the
    arguments modelled here: [undefined] gives [NaN]; a string of decimal
    digits (the empty one included) gives its value, as long as the
    value is below 2^53 and so exact.  Other strings (signs, fractions,
    exponents, hexadecimal, white space, non-numbers) are not computed
    here, [None]: what [%d] prints for them is the runtime's, see
    [format_d]. *)
Definition Number (arg : option string) : option Num :=
  match arg with
  | None => Some NaN
  | Some s =>
      match NilEmpty.uint_of_string s with
      | Some d => if Z.of_uint d <? 2 ^ 53 then Some (Int (Z.of_uint d)) else None
      | None => None
      end
  end.

(** What the script takes from the JavaScript runtime and from the cron
    package, beyond what is computed here. *)
Record Runtime := mkRuntime {
  (* String(Number(s)) for a string s that [Number] does not compute *)
  number_text : string -> string;
  (* new cronJob(crontab, ..., timezone) returns; it throws otherwise *)
  cron_accepts : string -> string -> bool
}.

(** What [util.format] prints for [%d] and the argument [arg]. *)
Definition format_d (rt : Runtime) (arg : option string) : string :=
  match Number arg, arg with
  | Some n, _ => Num_toString n
  | None, Some s => number_text rt s
  | None, None => "NaN"
  end.

(** [util.format('%d %d * * *', a, b)] *)
Definition format_crontab (rt : Runtime) (a b : option string) : string :=
  format_d rt a +:+ " " +:+ format_d rt b +:+ " * * *".

(** The crontab the scheduler branch of the script hands to [cronJob]. *)
Definition resolve_crontab (rt : Runtime) (cron : option CronConfig) : string :=
  match cron with
  | Some c =>
      if Js.truthy (crontab c) then Js.or_default (crontab c) ""
      else if Js.truthy (time c) then
        let time := Js.split ":" (Js.or_default (time c) "") in
        format_crontab rt (time !! 0%nat) (time !! 1%nat)
      else default_crontab
  | None => default_crontab
  end.

(** How the cron package reads a five-field expression: minute, hour,
    day of month, month, day of week, separated by blanks. *)
Record CronFields := mkCronFields {
  minute : string;
  hour : string;
  dayOfMonth : string;
  month : string;
  dayOfWeek : string
}.

Definition cron_fields (expr : string) : option CronFields :=
  match List.filter Path.nonempty (Js.split " " expr) with
  | [mi; h; dom; mo; dow] => Some (mkCronFields mi h dom mo dow)
  | _ => None
  end.

(** The expression fires once a day, at [h]:[m]. *)
Definition daily_at (h m : Z) (expr : string) : Prop :=
  cron_fields expr = Some (mkCronFields (Js.dec m) (Js.dec h) "*" "*" "*").

End Script.

(** ** A concrete host, for running the pipeline on examples *)

Module Host.

Definition plain (c : ascii) : bool :=
  let n := nat_of_ascii c in
  ((Nat.leb 48 n && Nat.leb n 57) || (Nat.leb 65 n && Nat.leb n 90)
   || (Nat.leb 97 n && Nat.leb n 122)
   || Nat.eqb n 47 || Nat.eqb n 46 || Nat.eqb n 95 || Nat.eqb n 45)%bool.

(** The words the shell passes to the program, for a command line made
    of letters, digits, [/ . _ -] and spaces only: the line is split at
    the spaces.  Quoting, expansion and the other metacharacters are not
    modelled: [None]. *)
Definition sh_words (command : string) : option (list string) :=
  if Js.all_chars (fun c => (plain c || Ascii.eqb c " ")%bool) command
  then Some (List.filter Path.nonempty (Js.split " " command))
  else None.

Definition under (p q : string) : bool :=
  (String.eqb p q || String.prefix (p +:+ "/") q)%bool.

(** [rm -rf paths]: every named path goes, with all that lies under it. *)
Definition rm_rf (paths : list string) (f : FS) : FS :=
  fold_left (fun f p => filter (fun kv => under p kv.1 = false) f) paths f.

Definition sh (permitted : bool) (command : string) (w : World)
  : option Error * FS :=
  match sh_words command with
  | Some ("rm" :: "-rf" :: paths)%string =>
      if permitted then (None, rm_rf paths (fs w))
      else (Some (mkError ("Command failed: " +:+ command)), fs w)
  | _ => (Some (mkError ("Command failed: " +:+ command)), fs w)
  end.

(** A dump that ends with [code]; on 0 it has written one collection
    under [<out>/<db>]. *)
Definition mongodump (code : ExitStatus) (args : list string) (w : World)
  : ProcRun :=
  match code, args with
  | Exited 0, ("-h" :: _ :: "-d" :: d :: "-o" :: o :: _)%string =>
      mkProcRun [(Stdout, "connected"%string)] code
        (<[Path.join (Path.join o d) "items.bson" := 2048]>
           (<[Path.join o d := 4096]> (fs w)))
  | _, _ => mkProcRun [(Stderr, "dump failed"%string)] code (fs w)
  end.

(** An archiver that ends with [code]; on 0 it has written the archive. *)
Definition tar (code : ExitStatus) (cwd : string) (args : list string)
    (w : World) : ProcRun :=
  match code, args with
  | Exited 0, ["-zcf"%string; out; _] =>
      mkProcRun [] code (<[Path.join cwd out := 1536]> (fs w))
  | _, _ => mkProcRun [(Stderr, "tar failed"%string)] code (fs w)
  end.

Definition env (tmp : string) (rm_permitted : bool)
    (dump_code tar_code : ExitStatus) (upload : PutOutcome) : Env :=
  mkEnv tmp (sh rm_permitted) (mongodump dump_code) (tar tar_code)
        (fun _ _ _ _ => upload) (fun data => data).

(** A runtime for the examples, as [env] is a host for them.  The
    examples take daily times made of decimal digits, for which
    [resolve_crontab] consults neither field; this one prints [NaN] for
    every string that [Script.Number] does not compute, and lets the
    cron package take the expressions of five fields.  A real runtime
    prints a number for some of these strings, and a real cron package
    looks into the fields. *)
Definition runtime : Script.Runtime :=
  Script.mkRuntime
    (fun _ => "NaN"%string)
    (fun crontab _ =>
       match Script.cron_fields crontab with Some _ => true | None => false end).

Definition shop : MongoConfig :=
  mkMongoConfig "localhost" "27017" None None "shop".

Definition bucket : S3Config := mkS3Config "AKIA" "s3cr3t" "backups" None.

(** 2026-11-03, two o'clock and three o'clock UTC. *)
Definition two_oclock : Date := mkDate 2026 10 3 1793671200000.
Definition three_oclock : Date := mkDate 2026 10 3 1793674800000.

Definition boot (now : Date) : World := mkWorld ∅ now [] [].

Definition at_time (now : Date) (w : World) : World :=
  mkWorld (fs w) now (logs w) (trace w).

End Host.

(** ** Two scenarios *)

Module TwoRuns.

Definition dumpDir : string := "/tmp/mongodb_s3_backup/shop".
Definition dumpFile : string := "/tmp/mongodb_s3_backup/shop/items.bson".
Definition firstArchive : string :=
  "/tmp/mongodb_s3_backup/shop_2026_11_3_1793671200000.tar.gz".
Definition secondArchive : string :=
  "/tmp/mongodb_s3_backup/shop_2026_11_3_1793674800000.tar.gz".

(** First run, at two o'clock: dump and compression succeed, the upload
    is answered with status 500. *)
Definition after_first : World :=
  sync (Host.env "/tmp" true (Exited 0) (Exited 0) (PutResponse 500 []))
       Host.shop Host.bucket None (Host.boot Host.two_oclock).

(** Second run for the same database, one hour later, in which the dump
    exits with code 1: the run ends where the dump began. *)
Definition second_until_dump : World :=
  sync (Host.env "/tmp" true (Exited 1) (Exited 0) (PutResponse 200 []))
       Host.shop Host.bucket None (Host.at_time Host.three_oclock after_first).

(** The same second run, with every step succeeding. *)
Definition second_complete : World :=
  sync (Host.env "/tmp" true (Exited 0) (Exited 0) (PutResponse 200 []))
       Host.shop Host.bucket None (Host.at_time Host.three_oclock after_first).

End TwoRuns.

Module Spaces.

Definition target : string := "/tmp/mongodb_s3_backup/my shop".
Definition other : string := "/tmp/mongodb_s3_backup/my".
Definition otherFile : string := "/tmp/mongodb_s3_backup/my/users.bson".

Definition env : Env :=
  Host.env "/tmp" true (Exited 0) (Exited 0) (PutResponse 200 []).

Definition before : World :=
  mkWorld (<[target := 4096]> (<[other := 4096]> {[ otherFile := 7 ]}))
          Host.two_oclock [] [].

Definition after : World := removeRF env target None before.

End Spaces.

(** * Specification vocabulary *)

(** ** What a run leaves on the trace *)

(** [t], started in [w], calls its callback exactly once, as the last
    thing it does, with [err], in world [w']. *)
Definition returns (t : Task) (w : World) (err : option Error) (w' : World)
  : Prop :=
  ∀ cb : Callback, t (Some cb) w = cb err w'.

(** The file system after a sequence of events. *)
Definition replay (evs : list Event) (f : FS) : FS :=
  fold_left (fun f ev =>
               match ev with
               | EExec _ _ f' => f'
               | ESpawn _ _ _ _ f' => f'
               | _ => f
               end) evs f.

Inductive Step :=
| Remove (target : string)
| Spawn (program : string) (args : list string) (cwd : option string)
| Upload (bucket src dst : string).

(** The event with which a step begins. *)
Definition starts (ev : Event) : option Step :=
  match ev with
  | EExists target _ => Some (Remove target)
  | ESpawn program args cwd _ _ => Some (Spawn program args cwd)
  | EPutFile b src dst _ => Some (Upload b src dst)
  | EExec _ _ _ | EStat _ _ | ECallback _ => None
  end.

Definition spawn_error (name : string) (code : ExitStatus) : option Error :=
  match code with
  | Exited 0 => None
  | _ => Some (mkError (name +:+ " exited with code " +:+ code_toString code))
  end.

Definition upload_error (outcome : PutOutcome) : option Error :=
  match outcome with
  | PutFailed err => Some err
  | PutResponse statusCode _ =>
      if statusCode =? 200 then None
      else Some (mkError ("Expected a 200 response from S3, got "
                          +:+ Js.dec statusCode))
  end.

(** The error, if any, that the library reports for an event. *)
Definition failure (ev : Event) : option Error :=
  match ev with
  | EExec _ err _ => err
  | ESpawn program _ _ code _ =>
      spawn_error (if String.eqb program "mongodump" then "Mongodump"
                   else if String.eqb program "tar" then "Tar"
                   else program) code
  | EPutFile _ _ _ outcome => upload_error outcome
  | EExists _ _ | EStat _ _ | ECallback _ => None
  end.

(** The events of one step, with the error it hands to its callback. *)
Inductive step_events : Step -> option Error -> list Event -> Prop :=
| remove_absent target :
    step_events (Remove target) None [EExists target false]
| remove_present target err f :
    step_events (Remove target) err
      [EExists target true; EExec ("rm -rf " +:+ target) err f]
| dump_exit args code f :
    step_events (Spawn "mongodump" args None) (spawn_error "Mongodump" code)
      [ESpawn "mongodump" args None code f]
| tar_failed cwd args code f :
    code ≠ Exited 0 ->
    step_events (Spawn "tar" args (Some cwd)) (spawn_error "Tar" code)
      [ESpawn "tar" args (Some cwd) code f]
| tar_done cwd out input f size :
    step_events (Spawn "tar" ["-zcf"%string; out; input] (Some cwd)) None
      [ESpawn "tar" ["-zcf"%string; out; input] (Some cwd) (Exited 0) f;
       EStat (Path.join cwd out) size]
| upload_done b src dst outcome :
    step_events (Upload b src dst) (upload_error outcome)
      [EPutFile b src dst outcome].

(** The events of a series of steps: each step that succeeds is followed
    by the next one, the first that fails ends the run. *)
Inductive run_events : list Step -> option Error -> list Event -> Prop :=
| run_done : run_events [] None []
| run_next s ss evs1 err evs2 :
    step_events s None evs1 ->
    run_events ss err evs2 ->
    run_events (s :: ss) err (evs1 ++ evs2)
| run_abort s ss e evs :
    step_events s (Some e) evs ->
    run_events (s :: ss) (Some e) evs.

(** A task performs a step: from every world it returns, having added
    the events of that step and nothing else to the trace. *)
Definition performs (t : Task) (s : Step) : Prop :=
  ∀ w, ∃ err w' evs,
    returns t w err w'
    ∧ trace w' = trace w ++ evs
    ∧ fs w' = replay evs (fs w)
    ∧ step_events s err evs.

(** The steps of [sync], for an archive name. *)
Definition plan (env : Env) (mongodbConfig : MongoConfig)
    (s3Config : S3Config) (archiveName : string) : list Step :=
  let backupDir := Path.join (tmpDir env) (db mongodbConfig) in
  let archive := Path.join (tmpDir env) archiveName in
  [ Remove backupDir;
    Remove archive;
    Spawn "mongodump" (mongoOptions mongodbConfig (tmpDir env)) None;
    Spawn "tar" ["-zcf"%string; archiveName; db mongodbConfig]
          (Some (tmpDir env));
    Upload (bucket s3Config) archive
           (Path.join (Js.or_default (destination s3Config) "/") archiveName);
    Remove backupDir;
    Remove archive ].

Definition quiet (ev : Event) : Prop := failure ev = None.

Definition uploaded_ev (ev : Event) : bool :=
  match ev with
  | EPutFile _ _ _ outcome =>
      match upload_error outcome with None => true | Some _ => false end
  | _ => false
  end.

(** The upload step ran and succeeded. *)
Definition uploaded (evs : list Event) : bool := existsb uploaded_ev evs.

(** The events that follow the upload. *)
Fixpoint post_clean (evs : list Event) : list Event :=
  match evs with
  | [] => []
  | EPutFile _ _ _ _ :: rest => rest
  | _ :: rest => post_clean rest
  end.

(** The file system that the last child process of a run left. *)
Definition last_spawn_fs (evs : list Event) : option FS :=
  fold_left (fun o ev =>
               match ev with
               | ESpawn _ _ _ _ f => Some f
               | _ => o
               end) evs None.

(** The two post-clean removals are started exactly when the upload
    succeeded: C1 as it is worded. *)
Definition post_clean_iff_uploaded (env : Env) (cfg : MongoConfig)
    (s3 : S3Config) (w : World) : Prop :=
  let archiveName := getArchiveName (db cfg) (clock w) in
  let backupDir := Path.join (tmpDir env) (db cfg) in
  let archive := Path.join (tmpDir env) archiveName in
  let evs := drop (length (trace w)) (trace (sync env cfg s3 None w)) in
  omap starts (post_clean evs) = [Remove backupDir; Remove archive]
  ↔ uploaded evs = true.

(** A caller that notes on the trace the callback it receives. *)
Definition recording : Callback := fun err w => emit (ECallback err) w.

(** The callbacks noted on a trace. *)
Definition callbacks (evs : list Event) : list (option Error) :=
  omap (fun ev => match ev with ECallback err => Some err | _ => None end) evs.

(** The shell commands on a trace. *)
Definition commands (evs : list Event) : list string :=
  omap (fun ev => match ev with EExec c _ _ => Some c | _ => None end) evs.

(** ** Characters of decimal numbers *)

Definition is_digit (c : ascii) : bool :=
  let n := nat_of_ascii c in (Nat.leb 48 n && Nat.leb n 57)%bool.

Definition is_digit_or_minus (c : ascii) : bool :=
  (is_digit c || Ascii.eqb c "-")%bool.

Definition differs (sep : ascii) (c : ascii) : bool := negb (Ascii.eqb c sep).

(** ** The command line script: starting up *)

Module Main.

(** [path.resolve(process.cwd(), p)]: the arguments are taken from the
    last to the first, and the working directory once more, until the
    path is absolute; the segments are normalized, and no trailing slash
    is kept. *)
Fixpoint resolve_go (paths : list string) (resolvedPath : string)
  : string * bool :=
  match paths with
  | [] => (resolvedPath, false)
  | p :: rest =>
      if Path.nonempty p then
        let resolvedPath := p +:+ "/" +:+ resolvedPath in
        if Path.charAt0_is_slash p then (resolvedPath, true)
        else resolve_go rest resolvedPath
      else resolve_go rest resolvedPath
  end.

Definition resolve (cwd p : string) : string :=
  let '(resolvedPath, resolvedAbsolute) := resolve_go [p; cwd; cwd] "" in
  let body :=
    Js.join "/" (Path.normalizeArray
                   (List.filter Path.nonempty (Js.split "/" resolvedPath))
                   (negb resolvedAbsolute)) in
  let out := (if resolvedAbsolute then "/" else "") +:+ body in
  if Path.nonempty out then out else ".".

Definition default_timezone : string := "America/New_York".

Definition dquote : string := String (ascii_of_nat 34) EmptyString.

(** What the script is started with. *)
Record Invocation := mkInvocation {
  argv : list string;                 (* cli.args *)
  now : bool;                         (* options.now *)
  cwd : string;                       (* process.cwd() *)
  load : string -> Script.Config;     (* require(configPath) *)
  (* require('time'): [None] when the module loads, else the line that
     winston prints for the exception *)
  require_time : option string
}.

(** How the start of the script ends. *)
Inductive Started :=
| Usage                                       (* cli.getUsage() *)
| ProcessExit (code : Z) (w : World)          (* process.exit(code) *)
| Waiting (w : World)                         (* --now, no callback so far *)
| Uncaught (w : World)                        (* new cronJob(...) threw *)
| Scheduled (crontab timezone : string) (job : Cont) (w : World).

(** The script, from the check of the arguments on.  With [--now] the
    callback of [sync] ends the process: the callback is noted on the
    trace, and the first one noted gives the exit code.  Otherwise the
    cron job is created with the resolved expression and time zone, and
    the success line is logged after it: when the cron package rejects
    the expression or the zone, the constructor throws, nothing is
    scheduled and the line is not logged.  [job] is what every firing
    runs. *)
Definition main (env : Env) (rt : Script.Runtime) (inv : Invocation)
    (w : World) : Started :=
  match argv inv with
  | [arg] =>
      let configPath := resolve (cwd inv) arg in
      let w := winston Winston.info
                 ("Loading config file (" +:+ configPath +:+ ")") w in
      let config := load inv configPath in
      if now inv then
        let w' := sync env (Script.mongodb config) (Script.s3 config)
                       (Some recording) w in
        match callbacks (drop (length (trace w)) (trace w')) with
        | err :: _ =>
            ProcessExit (match err with Some _ => 1 | None => 0 end) w'
        | [] => Waiting w'
        end
      else
        let crontab := Script.resolve_crontab rt (Script.cron config) in
        let job := sync env (Script.mongodb config) (Script.s3 config) None in
        let schedule timezone w :=
          if Script.cron_accepts rt crontab timezone then
            Scheduled crontab timezone job
              (winston Winston.info
                 ("MongoDB S3 Backup Successfully scheduled ("
                  +:+ crontab +:+ ")") w)
          else Uncaught w in
        match Script.cron config with
        | Some c =>
            if Js.truthy (Script.timezone c) then
              match require_time inv with
              | Some e =>
                  ProcessExit 1
                    (winston Winston.error
                       "Module 'time' is not installed by default, install it with `npm install time`"
                       (winston Winston.error e w))
              | None =>
                  let timezone := Js.or_default (Script.timezone c) "" in
                  schedule timezone
                    (winston Winston.info
                       ("Overriding default timezone with "
                        +:+ dquote +:+ timezone +:+ dquote) w)
              end
            else schedule default_timezone w
        | None => schedule default_timezone w
        end
  | _ => Usage
  end.

End Main.

(** ** Where the events of a step come from *)

(** The event is one that the step makes, with the paths and the
    arguments of the step. *)
Definition belongs (ev : Event) (s : Step) : Prop :=
  match ev with
  | EExists target _ => s = Remove target
  | EExec command _ _ => ∃ target, s = Remove target
                                   ∧ command = "rm -rf " +:+ target
  | ESpawn program args cwd _ _ => s = Spawn program args cwd
  | EStat path _ =>
      ∃ cwd out input,
        s = Spawn "tar" ["-zcf"%string; out; input] (Some cwd)
        ∧ path = Path.join cwd out
  | EPutFile b src dst _ => s = Upload b src dst
  | ECallback _ => False
  end.



(** ** The numeric value of a string of digits *)

(** What [Script.Number] makes of a string of decimal digits: leading
    zeros do not count, the empty string is 0. *)
Definition digits_value (s : string) : Z :=
  match NilEmpty.uint_of_string s with
  | Some d => Z.of_uint d
  | None => 0
  end.

(** ** How the start of the scheduler ends *)

(** The time zone of the configuration, when it is set. *)
Definition configured_zone (config : Script.Config) : option string :=
  match Script.cron config with
  | Some c => if Js.truthy (Script.timezone c) then Script.timezone c else None
  | None => None
  end.

(** What can come of starting the scheduler in world [w]: either the
    cron package takes the resolved expression and the zone, and the job
    is scheduled with them, in the configured zone (the time module then
    loads) or in the default zone, the job being [sync] with no
    callback, and the success line is the last line logged; or the cron
    package rejects them, nothing is scheduled and the success line is
    not logged; or the zone is configured, the time module does not
    load, and the process ends with code 1.  In every case nothing
    outside the process has been called. *)
Definition schedule_outcome (env : Env) (rt : Script.Runtime)
    (config : Script.Config) (configPath : string)
    (require_time : option string) (w : World) (started : Main.Started)
  : Prop :=
  let crontab := Script.resolve_crontab rt (Script.cron config) in
  let zone := default Main.default_timezone (configured_zone config) in
  let loading :=
    (Winston.info, "Loading config file (" +:+ configPath +:+ ")") in
  let overriding :=
    match configured_zone config with
    | Some z => [(Winston.info,
                  "Overriding default timezone with "
                  +:+ Main.dquote +:+ z +:+ Main.dquote)]
    | None => []
    end in
  let success :=
    (Winston.info,
     "MongoDB S3 Backup Successfully scheduled (" +:+ crontab +:+ ")") in
  match started with
  | Main.Scheduled crontab' timezone job w' =>
      crontab' = crontab ∧ timezone = zone
      ∧ Script.cron_accepts rt crontab zone = true
      ∧ (is_Some (configured_zone config) -> require_time = None)
      ∧ job = sync env (Script.mongodb config) (Script.s3 config) None
      ∧ trace w' = trace w ∧ fs w' = fs w
      ∧ logs w' = logs w ++ [loading] ++ overriding ++ [success]
  | Main.Uncaught w' =>
      Script.cron_accepts rt crontab zone = false
      ∧ (is_Some (configured_zone config) -> require_time = None)
      ∧ trace w' = trace w ∧ fs w' = fs w
      ∧ logs w' = logs w ++ [loading] ++ overriding
  | Main.ProcessExit code w' =>
      code = 1 ∧ is_Some (configured_zone config) ∧ is_Some require_time
      ∧ trace w' = trace w ∧ fs w' = fs w
      ∧ (Winston.info, success.2) ∉ drop (length (logs w)) (logs w')
  | _ => False
  end.

(** * Properties *)

Ltac invert_step :=
  match goal with
  | H : step_events (Remove _) _ _ |- _ => inversion H; subst; clear H
  | H : step_events (Spawn _ _ _) _ _ |- _ => inversion H; subst; clear H
  | H : step_events (Upload _ _ _) _ _ |- _ => inversion H; subst; clear H
  end.

Ltac invert_run :=
  match goal with
  | H : run_events (_ :: _) _ _ |- _ => inversion H; subst; clear H
  | H : run_events [] _ _ |- _ => inversion H; subst; clear H
  end.

Ltac absurd_exit :=
  match goal with
  | Hne : ?code ≠ Exited 0, H : spawn_error _ ?code = None |- _ =>
      destruct code as [[| |]|]; simpl in H; congruence
  end.

Ltac use_upload :=
  match goal with
  | H : upload_error _ = _ |- _ => rewrite H in *
  | H : _ = upload_error _ |- _ => rewrite <- H in *
  end.

Ltac compute_each :=
  repeat match goal with
         | |- _ ∧ _ => split; [vm_compute; reflexivity|]
         | |- _ = _ => vm_compute; reflexivity
         end.

(** ** Strings and decimal numbers *)

Lemma all_chars_impl (p q : ascii -> bool) s :
  (∀ c, p c = true -> q c = true) ->
  Js.all_chars p s = true -> Js.all_chars q s = true.
Proof.
  intros Hpq. induction s as [|c s IH]; simpl; [done|].
  intros [Hc Hs]%andb_true_iff. rewrite (Hpq _ Hc). simpl. auto.
Qed.

Lemma all_chars_app p a b :
  Js.all_chars p (a +:+ b) = (Js.all_chars p a && Js.all_chars p b)%bool.
Proof.
  induction a as [|c a IH]; simpl; [done|]. rewrite IH. by rewrite andb_assoc.
Qed.

Lemma uint_digits d : Js.all_chars is_digit (NilEmpty.string_of_uint d) = true.
Proof. induction d; simpl; auto. Qed.

Lemma string_of_uint_nonnil d :
  d ≠ Decimal.Nil -> NilZero.string_of_uint d = NilEmpty.string_of_uint d.
Proof. destruct d; simpl; congruence. Qed.

Lemma dec_pos p :
  Js.dec (Z.pos p) = NilEmpty.string_of_uint (Pos.to_uint p).
Proof. apply string_of_uint_nonnil, Unsigned.to_uint_nonnil. Qed.

Lemma dec_nonneg_digits z : 0 <= z -> Js.all_chars is_digit (Js.dec z) = true.
Proof.
  intros Hz. destruct z as [|p|p]; [reflexivity| |lia].
  rewrite dec_pos. apply uint_digits.
Qed.

Lemma dec_nonempty z : Js.dec z ≠ ""%string.
Proof.
  unfold Js.dec. destruct z as [|p|p]; simpl; try discriminate.
  pose proof (Unsigned.to_uint_nonnil p) as Hnil.
  destruct (Pos.to_uint p); simpl; congruence.
Qed.

Lemma dec_inj a b : Js.dec a = Js.dec b -> a = b.
Proof.
  unfold Js.dec. intros H.
  assert (Hn : ∀ z, Z.to_int z ≠ Decimal.Pos Decimal.Nil
                    ∧ Z.to_int z ≠ Decimal.Neg Decimal.Nil).
  { intros [|p|p]; simpl; split; try discriminate;
      intros [= E]; by apply (Unsigned.to_uint_nonnil p). }
  destruct (Hn a) as [Ha1 Ha2], (Hn b) as [Hb1 Hb2].
  pose proof (NilZero.isi _ Ha1 Ha2) as Ia.
  pose proof (NilZero.isi _ Hb1 Hb2) as Ib.
  rewrite H in Ia. rewrite Ia in Ib. injection Ib as Ib.
  rewrite <- (DecimalZ.of_to a), <- (DecimalZ.of_to b). by rewrite Ib.
Qed.

Lemma split_no_sep sep s :
  Js.all_chars (differs sep) s = true -> Js.split sep s = [s].
Proof.
  induction s as [|c s IH]; simpl; [done|].
  intros [Hc Hs]%andb_true_iff. unfold differs in Hc.
  apply negb_true_iff in Hc. rewrite Hc, (IH Hs). done.
Qed.

Lemma split_app sep a b :
  Js.all_chars (differs sep) a = true ->
  Js.split sep (a +:+ String sep b) = a :: Js.split sep b.
Proof.
  induction a as [|c a IH]; simpl.
  - intros _. by rewrite Ascii.eqb_refl.
  - intros [Hc Hs]%andb_true_iff. unfold differs in Hc.
    apply negb_true_iff in Hc. rewrite Hc, (IH Hs). done.
Qed.

Lemma app_sep_inj sep a a' r r' :
  Js.all_chars (differs sep) a = true ->
  Js.all_chars (differs sep) a' = true ->
  a +:+ String sep r = a' +:+ String sep r' -> a = a' ∧ r = r'.
Proof.
  revert a'. induction a as [|c a IH]; intros [|c' a']; simpl.
  - intros _ _ [= ->]. done.
  - intros _ [Hc _]%andb_true_iff [= <- _].
    unfold differs in Hc. by rewrite Ascii.eqb_refl in Hc.
  - intros [Hc _]%andb_true_iff _ [= -> _].
    unfold differs in Hc. by rewrite Ascii.eqb_refl in Hc.
  - intros [_ Ha]%andb_true_iff [_ Ha']%andb_true_iff [= -> H].
    destruct (IH _ Ha Ha' H) as [-> ->]. done.
Qed.

Lemma app_cons c (a b : string) : String c a +:+ b = String c (a +:+ b).
Proof. reflexivity. Qed.

Lemma app_nil (b : string) : "" +:+ b = b.
Proof. reflexivity. Qed.

Lemma string_app_assoc (a b c : string) : (a +:+ b) +:+ c = a +:+ (b +:+ c).
Proof.
  induction a as [|x a IH]; [done|]. rewrite !app_cons. f_equal. exact IH.
Qed.

Ltac norm_app :=
  repeat first [rewrite string_app_assoc | rewrite app_cons | rewrite app_nil].

Lemma digit_differs sep : is_digit sep = false -> ∀ c, is_digit c = true -> differs sep c = true.
Proof.
  intros Hsep c Hc. unfold differs. apply negb_true_iff.
  destruct (Ascii.eqb_spec c sep) as [->|]; [congruence|done].
Qed.

Lemma dec_chars z : Js.all_chars is_digit_or_minus (Js.dec z) = true.
Proof.
  destruct z as [|p|p].
  - reflexivity.
  - apply (all_chars_impl is_digit); [|by apply dec_nonneg_digits].
    intros c Hc. unfold is_digit_or_minus. by rewrite Hc.
  - change (Js.dec (Z.neg p)) with (String "-" (Js.dec (Z.pos p))).
    simpl. apply (all_chars_impl is_digit); [|by apply dec_nonneg_digits].
    intros c Hc. unfold is_digit_or_minus. by rewrite Hc.
Qed.

Lemma dec_differs sep z :
  is_digit_or_minus sep = false -> Js.all_chars (differs sep) (Js.dec z) = true.
Proof.
  intros Hsep. apply (all_chars_impl is_digit_or_minus); [|apply dec_chars].
  intros c Hc. unfold differs. apply negb_true_iff.
  destruct (Ascii.eqb_spec c sep) as [->|]; [congruence|done].
Qed.

(** ** What each function leaves on the trace *)

Section Runs.

Variable env : Env.

Lemma fold_winston_frame {A} (f : World -> A -> World) (l : list A) w :
  (∀ w a, fs (f w a) = fs w ∧ clock (f w a) = clock w
          ∧ trace (f w a) = trace w) ->
  fs (fold_left f l w) = fs w ∧ clock (fold_left f l w) = clock w
  ∧ trace (fold_left f l w) = trace w.
Proof.
  intros Hf. revert w. induction l as [|a l IH]; intros w; simpl; [done|].
  destruct (IH (f w a)) as (-> & -> & ->). apply Hf.
Qed.

Lemma removeRF_performs target : performs (removeRF env target) (Remove target).
Proof.
  intros w. unfold returns, removeRF, fs_exists, exec.
  destruct (fs w !! target) as [sz|] eqn:Hlook; simpl.
  - match goal with |- context [sh env ?c ?w0] =>
      destruct (sh env c w0) as [err f'] eqn:Hsh end.
    eexists err, _, [EExists target true; EExec _ err f'].
    split; [intros cb; simpl; reflexivity|].
    simpl. rewrite <- app_assoc. repeat split. constructor.
  - eexists None, _, [EExists target false].
    split; [intros cb; simpl; reflexivity|].
    simpl. repeat split. constructor.
Qed.

Lemma mongoDump_performs options directory :
  performs (mongoDump env options directory)
           (Spawn "mongodump" (mongoOptions options directory) None).
Proof.
  intros w. unfold returns, mongoDump, spawn.
  set (w0 := winston Winston.info _ w).
  set (run := mongodump_bin env _ w0).
  set (w1 := fold_left _ (output run) w0).
  assert (Hw1 : fs w1 = fs w ∧ clock w1 = clock w ∧ trace w1 = trace w).
  { unfold w1. apply (fold_winston_frame _ (output run) w0).
    intros w2 [[] data]; simpl; done. }
  destruct Hw1 as (Hfs & Hck & Htr).
  exists (spawn_error "Mongodump" (status run)).
  destruct (status run) as [[|c|c]|] eqn:Hst; simpl;
    eexists _, [ESpawn "mongodump" _ None _ (fs_after run)];
    (split; [intros cb; simpl; reflexivity|]);
    simpl; rewrite Htr; repeat split;
    first [ apply (dump_exit _ (Exited 0))
          | apply (dump_exit _ (Exited (Z.pos c)))
          | apply (dump_exit _ (Exited (Z.neg c)))
          | apply (dump_exit _ Signaled) ].
Qed.

Lemma compressDirectory_performs directory input out :
  performs (compressDirectory env directory input out)
           (Spawn "tar" ["-zcf"%string; out; input] (Some directory)).
Proof.
  intros w. unfold returns, compressDirectory, spawn, fs_stat.
  set (w0 := winston Winston.info _ w).
  set (run := tar_bin env _ _ w0).
  set (w1 := fold_left _ (output run) w0).
  assert (Hw1 : fs w1 = fs w ∧ clock w1 = clock w ∧ trace w1 = trace w).
  { unfold w1. apply (fold_winston_frame _ (output run) w0).
    intros w2 [[] data]; simpl; done. }
  destruct Hw1 as (Hfs & Hck & Htr).
  destruct (status run) as [[|c|c]|] eqn:Hst; simpl.
  - eexists None, _,
      [ESpawn "tar" _ (Some directory) (Exited 0) (fs_after run);
       EStat (Path.join directory out)
             (fs_after run !! Path.join directory out)].
    split; [intros cb; simpl; reflexivity|].
    simpl. rewrite Htr, <- app_assoc. repeat split. constructor.
  - eexists (spawn_error "Tar" (Exited (Z.pos c))), _,
      [ESpawn "tar" _ (Some directory) _ (fs_after run)].
    split; [intros cb; simpl; reflexivity|].
    simpl. rewrite Htr. repeat split.
    by apply (tar_failed _ _ (Exited (Z.pos c))).
  - eexists (spawn_error "Tar" (Exited (Z.neg c))), _,
      [ESpawn "tar" _ (Some directory) _ (fs_after run)].
    split; [intros cb; simpl; reflexivity|].
    simpl. rewrite Htr. repeat split.
    by apply (tar_failed _ _ (Exited (Z.neg c))).
  - eexists (spawn_error "Tar" Signaled), _,
      [ESpawn "tar" _ (Some directory) _ (fs_after run)].
    split; [intros cb; simpl; reflexivity|].
    simpl. rewrite Htr. repeat split.
    by apply (tar_failed _ _ Signaled).
Qed.

Lemma sendToS3_performs options directory target :
  performs (sendToS3 env options directory target)
           (Upload (bucket options) (Path.join directory target)
              (Path.join (Js.or_default (destination options) "/") target)).
Proof.
  intros w. unfold returns, sendToS3, putFile.
  set (w0 := winston Winston.info _ w).
  set (outcome := knox_putFile env _ _ _ w0).
  exists (upload_error outcome).
  destruct outcome as [e|st chunks] eqn:Hout.
  - eexists _, [EPutFile _ _ _ (PutFailed e)].
    split; [intros cb; simpl; reflexivity|].
    simpl. repeat split. apply (upload_done _ _ _ (PutFailed e)).
  - set (w1 := fold_left (fun w chunk =>
                 if negb (st =? 200) then winston Winston.error chunk w
                 else winston Winston.info chunk w) chunks
                 (emit (EPutFile (bucket options) (Path.join directory target)
                          (Path.join (Js.or_default (destination options) "/")
                             target) (PutResponse st chunks)) w0)).
    assert (Hw1 : fs w1 = fs w ∧ clock w1 = clock w
                  ∧ trace w1 = trace w ++ [EPutFile (bucket options)
                      (Path.join directory target)
                      (Path.join (Js.or_default (destination options) "/")
                         target) (PutResponse st chunks)]).
    { unfold w1.
      match goal with |- context [fold_left ?f ?l ?x] =>
        assert (Hf : ∀ w a, fs (f w a) = fs w ∧ clock (f w a) = clock w
                            ∧ trace (f w a) = trace w)
          by (intros w2 c; destruct (negb (st =? 200)); done);
        destruct (fold_winston_frame f l x Hf) as (-> & -> & ->) end.
      done. }
    destruct Hw1 as (Hfs & Hck & Htr).
    simpl. destruct (st =? 200) eqn:Hst; simpl.
    + eexists _, [EPutFile _ _ _ (PutResponse st chunks)].
      split; [intros cb; simpl; fold w1; reflexivity|].
      simpl. fold w1. rewrite Htr, Hfs. repeat split.
      pose proof (upload_done (bucket options) (Path.join directory target)
        (Path.join (Js.or_default (destination options) "/") target)
        (PutResponse st chunks)) as H.
      simpl in H. by rewrite Hst in H.
    + eexists _, [EPutFile _ _ _ (PutResponse st chunks)].
      split; [intros cb; simpl; fold w1; reflexivity|].
      rewrite Htr, Hfs. repeat split.
      pose proof (upload_done (bucket options) (Path.join directory target)
        (Path.join (Js.or_default (destination options) "/") target)
        (PutResponse st chunks)) as H.
      simpl in H. by rewrite Hst in H.
Qed.

Lemma series_run tasks steps :
  Forall2 performs tasks steps ->
  ∀ w, ∃ err w' evs,
    (∀ cb, series tasks cb w = cb err w')
    ∧ trace w' = trace w ++ evs
    ∧ fs w' = replay evs (fs w)
    ∧ run_events steps err evs.
Proof.
  induction 1 as [|t s ts ss Ht _ IH]; intros w.
  - exists None, w, []. simpl. rewrite app_nil_r. repeat split. constructor.
  - destruct (Ht w) as (err & w1 & evs1 & Hret & Htr & Hfs & Hev).
    destruct err as [e|].
    + exists (Some e), w1, evs1.
      split; [intros cb; simpl; by rewrite Hret|].
      repeat split; try done. by constructor.
    + destruct (IH w1) as (err & w2 & evs2 & Hret2 & Htr2 & Hfs2 & Hev2).
      exists err, w2, (evs1 ++ evs2).
      split; [intros cb; simpl; rewrite Hret; apply Hret2|].
      rewrite Htr2, Htr, app_assoc. split; [done|].
      split; [|by constructor].
      rewrite Hfs2, Hfs. unfold replay. by rewrite fold_left_app.
Qed.

Lemma sync_tasks_perform cfg s3 archiveName :
  Forall2 performs (sync_tasks env cfg s3 archiveName)
          (plan env cfg s3 archiveName).
Proof.
  unfold sync_tasks, plan.
  constructor; [exact (removeRF_performs _)|].
  constructor; [exact (removeRF_performs _)|].
  constructor; [exact (mongoDump_performs _ _)|].
  constructor; [exact (compressDirectory_performs _ _ _)|].
  constructor; [exact (sendToS3_performs _ _ _)|].
  constructor; [exact (removeRF_performs _)|].
  constructor; [exact (removeRF_performs _)|].
  constructor.
Qed.

(** A run of [sync]: one call of the callback, at the end, and a trace
    that is a run of the plan. *)
Lemma sync_run cfg s3 w :
  ∃ err w' evs,
    (∀ cb, sync env cfg s3 (Some cb) w = cb err w')
    ∧ sync env cfg s3 None w = w'
    ∧ trace w' = trace w ++ evs
    ∧ fs w' = replay evs (fs w)
    ∧ run_events (plan env cfg s3 (getArchiveName (db cfg) (clock w))) err evs.
Proof.
  destruct (series_run _ _
              (sync_tasks_perform cfg s3 (getArchiveName (db cfg) (clock w))) w)
    as (err & w1 & evs & Hret & Htr & Hfs & Hrun).
  exists err.
  destruct err as [e|].
  - exists (winston Winston.error ("Failed during sync: " +:+ Error_toString e) w1),
      evs.
    unfold sync. split; [intros cb; by rewrite Hret|].
    split; [by rewrite Hret|]. done.
  - exists (winston Winston.info ("Successfully backed up " +:+ db cfg) w1), evs.
    unfold sync. split; [intros cb; by rewrite Hret|].
    split; [by rewrite Hret|]. done.
Qed.

End Runs.

(** ** General facts about runs *)

Lemma step_events_starts s err evs :
  step_events s err evs -> omap starts evs = [s].
Proof. destruct 1; reflexivity. Qed.

Lemma step_events_failure s err evs :
  step_events s err evs ->
  match err with
  | None => Forall quiet evs
  | Some e => ∃ pre ev, evs = pre ++ [ev] ∧ Forall quiet pre ∧ failure ev = Some e
  end.
Proof.
  destruct 1 as [target|target err f|args code f|cwd args code f Hcode
                |cwd out input f size|b src dst outcome].
  - repeat constructor.
  - destruct err as [e|].
    + eexists [_], _. repeat split. repeat constructor.
    + repeat constructor.
  - destruct (spawn_error "Mongodump" code) as [e|] eqn:He.
    + exists [], (ESpawn "mongodump" args None code f). repeat split; [constructor|done].
    + repeat constructor. exact He.
  - destruct (spawn_error "Tar" code) as [e|] eqn:He.
    + exists [], (ESpawn "tar" args (Some cwd) code f). repeat split; [constructor|done].
    + repeat constructor. exact He.
  - repeat constructor.
  - destruct (upload_error outcome) as [e|] eqn:He.
    + exists [], (EPutFile b src dst outcome). repeat split; [constructor|done].
    + repeat constructor. exact He.
Qed.

Lemma run_events_prefix steps err evs :
  run_events steps err evs -> ∃ n, omap starts evs = take n steps.
Proof.
  induction 1 as [|s ss evs1 err evs2 Hs _ [n IH]|s ss e evs Hs].
  - by exists 0%nat.
  - exists (S n). rewrite omap_app, (step_events_starts _ _ _ Hs), IH. done.
  - exists 1%nat. rewrite (step_events_starts _ _ _ Hs). done.
Qed.

Lemma run_events_complete steps evs :
  run_events steps None evs -> omap starts evs = steps.
Proof.
  remember None as err eqn:Herr. intros H.
  induction H as [|s ss evs1 err evs2 Hs _ IH|s ss e evs Hs]; [done| |done].
  rewrite omap_app, (step_events_starts _ _ _ Hs), IH; done.
Qed.

Lemma run_events_failure steps err evs :
  run_events steps err evs ->
  match err with
  | None => Forall quiet evs
  | Some e => ∃ pre ev, evs = pre ++ [ev] ∧ Forall quiet pre ∧ failure ev = Some e
  end.
Proof.
  induction 1 as [|s ss evs1 err evs2 Hs _ IH|s ss e evs Hs].
  - constructor.
  - apply step_events_failure in Hs. destruct err as [e|].
    + destruct IH as (pre & ev & -> & Hpre & Hev).
      exists (evs1 ++ pre), ev. rewrite app_assoc. repeat split; [|done].
      by apply Forall_app.
    + by apply Forall_app.
  - by apply step_events_failure in Hs.
Qed.

Lemma step_events_callbacks s err evs :
  step_events s err evs -> callbacks evs = [].
Proof. destruct 1; reflexivity. Qed.

Lemma run_events_callbacks steps err evs :
  run_events steps err evs -> callbacks evs = [].
Proof.
  induction 1 as [|s ss evs1 err evs2 Hs _ IH|s ss e evs Hs].
  - reflexivity.
  - pose proof (step_events_callbacks _ _ _ Hs) as H1.
    unfold callbacks in *. by rewrite omap_app, IH, H1.
  - by apply step_events_callbacks in Hs.
Qed.

(** ** The orchestrator *)

(** A run without failure that has an upload among its steps has
    uploaded. *)
Lemma quiet_upload_uploaded evs b src dst :
  Forall quiet evs -> Upload b src dst ∈ omap starts evs -> uploaded evs = true.
Proof.
  intros Hq Hin. apply list_elem_of_omap in Hin as (ev & Hev & Hst).
  rewrite Forall_forall in Hq. specialize (Hq _ Hev).
  unfold uploaded. apply existsb_exists. exists ev.
  split; [by apply list_elem_of_In|].
  destruct ev; try discriminate Hst. unfold quiet in Hq. cbn in *.
  by rewrite Hq.
Qed.

(** When the upload did not succeed the run has failed, and the failing
    event is its last event. *)
Lemma not_uploaded_failed_last steps err evs b src dst :
  run_events steps err evs -> Upload b src dst ∈ steps ->
  uploaded evs = false ->
  ∃ e pre ev, err = Some e ∧ evs = pre ++ [ev]
              ∧ Forall quiet pre ∧ failure ev = Some e.
Proof.
  intros Hrun Hin Hup.
  pose proof (run_events_failure _ _ _ Hrun) as Hf.
  destruct err as [e|].
  - destruct Hf as (pre & ev & ? & ? & ?). eauto 7.
  - apply run_events_complete in Hrun as Hall. rewrite <- Hall in Hin.
    rewrite (quiet_upload_uploaded _ _ _ _ Hf Hin) in Hup. discriminate Hup.
Qed.

(** The shapes of the runs of the plan, around the upload. *)
Lemma plan_runs_around_upload env cfg s3 archiveName err evs (fs' f0 : FS) :
  let steps := plan env cfg s3 archiveName in
  let backupDir := Path.join (tmpDir env) (db cfg) in
  let archive := Path.join (tmpDir env) archiveName in
  run_events steps err evs -> fs' = replay evs f0 ->
  (uploaded evs = false ->
     post_clean evs = []
     ∧ (∀ f, last_spawn_fs evs = Some f -> fs' = f)
     ∧ ∃ n, (n <= 5)%nat ∧ omap starts evs = take n steps)
  ∧ (uploaded evs = true ->
       (∃ e r6, post_clean evs = r6 ∧ err = Some e
                ∧ step_events (Remove backupDir) (Some e) r6)
       ∨ (∃ r6 r7, post_clean evs = r6 ++ r7
                   ∧ step_events (Remove backupDir) None r6
                   ∧ step_events (Remove archive) err r7)).
Proof.
  intros steps backupDir archive Hrun Hfs.
  unfold steps, plan in *. fold backupDir archive in Hrun |- *.
  clearbody backupDir archive.
  match goal with |- ?G => set (Claim_ := G) end.
  repeat invert_run; repeat invert_step; try absurd_exit.
  all: subst Claim_.
  all: unfold uploaded; simpl in *; try use_upload.
  all: split; intros Hup; try discriminate Hup.
  all: try (split; [reflexivity|]; split;
            [intros f' Hf'; unfold last_spawn_fs in Hf'; simpl in Hf'; congruence|];
            first [ exists 1%nat; split; [lia|reflexivity]
                  | exists 2%nat; split; [lia|reflexivity]
                  | exists 3%nat; split; [lia|reflexivity]
                  | exists 4%nat; split; [lia|reflexivity]
                  | exists 5%nat; split; [lia|reflexivity] ]).
  all: first
    [ solve [left; eexists _, _; split; [reflexivity|]; split; [reflexivity|];
             constructor]
    | solve [right; eexists [_], _; split; [reflexivity|]; split; constructor]
    | solve [right; eexists [_; _], _; split; [reflexivity|]; split; constructor] ].
Qed.


(** C1, as the code has it.  In every run of [sync]: when the upload did
    not succeed (it failed, or dump or compression failed before it, or a
    pre-clean removal did), the run has failed, the failing event is the
    last event of the run (nothing runs after the failing step), at most
    the first five steps were started (no post-clean removal), and the
    file system at the end is the one the last child process left, so
    the dump directory and the archive stay; when the upload succeeded,
    the removal of the dump directory runs, and the removal of the
    archive runs after it exactly when the removal of the dump directory
    did not fail. *)
Theorem sync_cleans_up_after_upload env cfg s3 w :
  let archiveName := getArchiveName (db cfg) (clock w) in
  let steps := plan env cfg s3 archiveName in
  let backupDir := Path.join (tmpDir env) (db cfg) in
  let archive := Path.join (tmpDir env) archiveName in
  ∃ err w' evs,
    (∀ cb, sync env cfg s3 (Some cb) w = cb err w')
    ∧ trace w' = trace w ++ evs
    ∧ (uploaded evs = false ->
         post_clean evs = []
         ∧ (∀ f, last_spawn_fs evs = Some f -> fs w' = f)
         ∧ (∃ n, (n <= 5)%nat ∧ omap starts evs = take n steps)
         ∧ ∃ e pre ev, err = Some e ∧ evs = pre ++ [ev]
                       ∧ Forall quiet pre ∧ failure ev = Some e)
    ∧ (uploaded evs = true ->
         (∃ e r6, post_clean evs = r6 ∧ err = Some e
                  ∧ step_events (Remove backupDir) (Some e) r6)
         ∨ (∃ r6 r7, post_clean evs = r6 ++ r7
                     ∧ step_events (Remove backupDir) None r6
                     ∧ step_events (Remove archive) err r7)).
Proof.
  intros archiveName steps backupDir archive.
  destruct (sync_run env cfg s3 w) as (err & w' & evs & Hret & _ & Htr & Hfs & Hrun).
  fold archiveName in Hrun. fold steps in Hrun.
  exists err, w', evs. split; [exact Hret|]. split; [exact Htr|].
  destruct (plan_runs_around_upload env cfg s3 archiveName err evs
              (fs w') (fs w) Hrun Hfs) as [Hno Hyes].
  split; [|exact Hyes].
  intros Hup. destruct (Hno Hup) as (Hpost & Hleft & Hn).
  split; [exact Hpost|]. split; [exact Hleft|]. split; [exact Hn|].
  eapply (not_uploaded_failed_last steps); [exact Hrun| |exact Hup].
  unfold steps, plan. do 4 right. left.
Qed.

(** C1 as it is worded fails.  The upload succeeds, the shell then fails
    to remove the dump directory: the removal of the archive is never
    started, and the archive stays. *)
Lemma sync_upload_ok_archive_kept :
  let env := Host.env "/tmp" false (Exited 0) (Exited 0) (PutResponse 200 []) in
  let w' := sync env Host.shop Host.bucket None (Host.boot Host.two_oclock) in
  ¬ post_clean_iff_uploaded env Host.shop Host.bucket (Host.boot Host.two_oclock)
  ∧ uploaded (trace w') = true
  ∧ omap starts (post_clean (trace w')) = [Remove "/tmp/mongodb_s3_backup/shop"]
  ∧ fs w' !! "/tmp/mongodb_s3_backup/shop_2026_11_3_1793671200000.tar.gz"
    = Some 1536.
Proof.
  intros env w'. split; [|split; [|split]].
  - unfold post_clean_iff_uploaded. intros [_ H].
    assert (Hup : uploaded (drop (length (trace (Host.boot Host.two_oclock)))
              (trace (sync env Host.shop Host.bucket None
                        (Host.boot Host.two_oclock)))) = true)
      by (vm_compute; reflexivity).
    specialize (H Hup). vm_compute in H. discriminate H.
  - vm_compute. reflexivity.
  - vm_compute. reflexivity.
  - vm_compute. reflexivity.
Qed.

(** A dump that exits with code 2: two removals and the dump are
    started, nothing else; the one callback carries the dump's error. *)
Example dump_failure_stops_run :
  let env := Host.env "/tmp" true (Exited 2) (Exited 0) (PutResponse 200 []) in
  let w' := sync env Host.shop Host.bucket (Some recording)
                 (Host.boot Host.two_oclock) in
  omap starts (trace w')
  = [ Remove TwoRuns.dumpDir; Remove TwoRuns.firstArchive;
      Spawn "mongodump"
            [ "-h"; "localhost:27017"; "-d"; "shop"; "-o";
              "/tmp/mongodb_s3_backup" ]%string None ]
  ∧ callbacks (trace w')
    = [ Some (mkError "Mongodump exited with code 2") ]
  ∧ logs w'
    = [ (Winston.info, "Starting mongodump of shop");
        (Winston.error, "dump failed");
        (Winston.error,
         "Failed during sync: Error: Mongodump exited with code 2") ]%string.
Proof. intros env w'. compute_each. Qed.

(** C2.  Every run of [sync] calls its callback exactly once, as its last
    action; the steps it starts are a prefix of the seven-step plan, in
    the order of the plan, and all seven when it succeeds; no event but
    the last can be a failure, and the error handed to the callback is
    that of the last event; in particular, after a dump that exits with
    a nonzero code only the first three steps have run (compression and
    upload are never started) and the callback gets the dump's error.  A
    caller that notes its callback on the trace notes exactly one. *)
Theorem sync_in_order_first_failure_aborts env cfg s3 w :
  let steps := plan env cfg s3 (getArchiveName (db cfg) (clock w)) in
  ∃ err w' evs,
    (∀ cb, sync env cfg s3 (Some cb) w = cb err w')
    ∧ sync env cfg s3 None w = w'
    ∧ trace w' = trace w ++ evs
    ∧ (∃ n, omap starts evs = take n steps)
    ∧ (err = None -> omap starts evs = steps)
    ∧ match err with
      | None => Forall quiet evs
      | Some e =>
          ∃ pre ev, evs = pre ++ [ev] ∧ Forall quiet pre ∧ failure ev = Some e
      end
    ∧ (∀ args cwd code f,
         ESpawn "mongodump" args cwd code f ∈ evs -> code ≠ Exited 0 ->
         err = spawn_error "Mongodump" code
         ∧ omap starts evs = take 3 steps)
    ∧ callbacks (drop (length (trace w))
                      (trace (sync env cfg s3 (Some recording) w))) = [err].
Proof.
  intros steps.
  destruct (sync_run env cfg s3 w) as (err & w' & evs & Hret & Hnone & Htr & _ & Hrun).
  fold steps in Hrun.
  exists err, w', evs. split; [exact Hret|]. split; [exact Hnone|].
  split; [exact Htr|].
  assert (Hcbs : callbacks (drop (length (trace w))
                     (trace (sync env cfg s3 (Some recording) w))) = [err]).
  { rewrite Hret. unfold recording, emit. cbn [trace].
    rewrite Htr, <- app_assoc, drop_app_length.
    unfold callbacks. rewrite omap_app.
    pose proof (run_events_callbacks _ _ _ Hrun) as Hcb.
    unfold callbacks in Hcb. by rewrite Hcb. }
  pose proof (run_events_prefix _ _ _ Hrun) as Hpre.
  pose proof (run_events_failure _ _ _ Hrun) as Hfail.
  split; [exact Hpre|].
  split; [intros ->; by apply run_events_complete|].
  split; [exact Hfail|].
  split; [|exact Hcbs].
  intros args cwd code f Hin Hcode.
  assert (Herr : failure (ESpawn "mongodump" args cwd code f)
                 = spawn_error "Mongodump" code) by reflexivity.
  assert (Hsome : is_Some (spawn_error "Mongodump" code)).
  { destruct code as [[| |]|]; simpl; eauto. congruence. }
  destruct Hsome as [e He].
  destruct err as [e'|].
  - destruct Hfail as (pre & ev & -> & Hquiet & Hev).
    apply elem_of_app in Hin as [Hin|Hin].
    + rewrite Forall_forall in Hquiet. apply Hquiet in Hin.
      unfold quiet in Hin. congruence.
    + apply list_elem_of_singleton in Hin. subst ev.
      split; [congruence|].
      destruct Hpre as [n Hn]. rewrite omap_app in Hn. simpl in Hn.
      assert (Hlast : last (take n steps) = Some (Spawn "mongodump" args cwd))
        by (rewrite <- Hn; apply last_snoc).
      rewrite omap_app. simpl. rewrite Hn.
      unfold steps, plan in *.
      destruct n as [|[|[|[|[|[|[|n]]]]]]]; simpl in Hlast; try discriminate Hlast.
      * reflexivity.
      * destruct n; discriminate Hlast.
  - rewrite Forall_forall in Hfail. apply Hfail in Hin.
    unfold quiet in Hin. congruence.
Qed.

(** ** The dump invoker *)

(** C7.  The arguments of the dump are the six host, database and output
    arguments, followed by the four credential arguments when both the
    user name and the password are set, and by nothing otherwise (a user
    name alone, or a password alone, adds no credential flag); these
    are the arguments [mongoDump] spawns [mongodump] with. *)
Theorem mongoDump_credentials_need_both env options directory w :
  let args := mongoOptions options directory in
  take 6 args = [ "-h"; host options +:+ ":" +:+ port options;
                  "-d"; db options; "-o"; directory ]%string
  ∧ (drop 6 args ≠ []
     ↔ Js.truthy (username options) = true ∧ Js.truthy (password options) = true)
  ∧ ((Js.truthy (username options) && Js.truthy (password options))%bool = true ->
     ∃ u p, username options = Some u ∧ password options = Some p
            ∧ drop 6 args = [ "-u"; u; "-p"; p ]%string)
  ∧ ∃ err w' code f,
      returns (mongoDump env options directory) w err w'
      ∧ trace w' = trace w ++ [ESpawn "mongodump" args None code f].
Proof.
  intros args.
  destruct (mongoDump_performs env options directory w)
    as (err & w' & evs & Hret & Htr & _ & Hev).
  inversion Hev; subst. fold args in Htr. clear Hev.
  assert (Hspawn : ∃ err w' code f,
             returns (mongoDump env options directory) w err w'
             ∧ trace w' = trace w ++ [ESpawn "mongodump" args None code f])
    by eauto 8.
  clear Hret Htr. revert Hspawn. generalize (mongoDump env options directory).
  unfold args, mongoOptions, Js.truthy, Js.or_default. intros t Hspawn.
  destruct (username options) as [u|] eqn:Hu;
    [destruct (String.eqb u "") eqn:Eu|];
    (destruct (password options) as [p|] eqn:Hp;
       [destruct (String.eqb p "") eqn:Ep|]); simpl in *.
  all: split; [reflexivity|].
  all: split; [split; [intros H; try (exfalso; by apply H); done
                      |intros [? ?]; try discriminate; done]|].
  all: split; [intros H; try discriminate H; eauto|exact Hspawn].
Qed.

(** ** The uploader *)

Lemma logs_fold_winston level chunks w :
  logs (fold_left (fun w chunk => winston level chunk w) chunks w)
  = logs w ++ map (fun chunk => (level, chunk)) chunks.
Proof.
  revert w. induction chunks as [|c chunks IH]; intros w; simpl.
  - by rewrite app_nil_r.
  - rewrite IH. simpl. by rewrite <- app_assoc.
Qed.

(** C8.  [sendToS3] calls back exactly once.  It reports success exactly
    when the client hands over a response whose status is 200.  A
    transport error goes to the callback at once, before anything of a
    response is handled; with a response, every chunk of the body is
    logged first (at error level unless the status is 200), and the end of
    the stream then calls back: with an error that carries the status
    code when it is not 200, with success otherwise. *)
Theorem sendToS3_success_iff_200 env options directory target w :
  let src := Path.join directory target in
  let dst := Path.join (Js.or_default (destination options) "/") target in
  let announce :=
    (Winston.info,
     "Attemping to upload " +:+ target +:+ " to the " +:+ bucket options
     +:+ " s3 bucket") in
  let outcome :=
    knox_putFile env options src dst (winston Winston.info announce.2 w) in
  ∃ err w',
    returns (sendToS3 env options directory target) w err w'
    ∧ (err = None ↔ ∃ chunks, outcome = PutResponse 200 chunks)
    ∧ match outcome with
      | PutFailed e => err = Some e ∧ logs w' = logs w ++ [announce]
      | PutResponse statusCode chunks =>
          if statusCode =? 200
          then err = None
               ∧ logs w' = logs w ++ [announce]
                           ++ map (fun c => (Winston.info, c)) chunks
                           ++ [(Winston.info, "Successfully uploaded to s3"%string)]
          else err = Some (mkError ("Expected a 200 response from S3, got "
                                    +:+ Js.dec statusCode))
               ∧ logs w' = logs w ++ [announce]
                           ++ map (fun c => (Winston.error, c)) chunks
      end.
Proof.
  intros src dst announce outcome.
  unfold returns, sendToS3, putFile. fold src dst. simpl in outcome. fold outcome.
  destruct outcome as [e|st chunks] eqn:Hout.
  - eexists (Some e), _. split; [intros cb; reflexivity|].
    split; [split; [discriminate|intros [? ?]; discriminate]|].
    split; reflexivity.
  - destruct (st =? 200) eqn:Hst; simpl.
    + eexists None, _. split; [intros cb; reflexivity|].
      apply Z.eqb_eq in Hst. subst st.
      split; [split; eauto|].
      split; [reflexivity|]. simpl.
      rewrite (logs_fold_winston Winston.info). simpl.
      by rewrite <- !app_assoc.
    + eexists (Some _), _. split; [intros cb; reflexivity|].
      apply Z.eqb_neq in Hst.
      split; [split; [discriminate|intros [? [= ? ?]]; congruence]|].
      split; [reflexivity|].
      rewrite (logs_fold_winston Winston.error). simpl.
      by rewrite <- !app_assoc.
Qed.

(** ** The archiver *)

(** C9.  [compressDirectory] calls back exactly once.  When [tar] exits
    with code 0 it reports success whatever [fs.stat] answers: the size,
    0 when the archive cannot be statted, only shows in the last log
    line.  Any other exit is reported as an error that carries the exit
    code. *)
Theorem compressDirectory_tolerates_stat_failure env directory input out w :
  let run :=
    tar_bin env directory [ "-zcf"%string; out; input ]
      (winston Winston.info
         ("Starting compression of " +:+ input +:+ " into " +:+ out) w) in
  let stats := fs_after run !! Path.join directory out in
  ∃ err w',
    returns (compressDirectory env directory input out) w err w'
    ∧ (status run = Exited 0 ->
       err = None
       ∧ last (logs w')
         = Some (Winston.info,
                 "Successfully compressed directory ("
                 +:+ friendlyFilesize (default 0 stats) +:+ ")")
       ∧ (stats = None ->
          last (logs w')
          = Some (Winston.info, "Successfully compressed directory (0 B)"%string)))
    ∧ (status run ≠ Exited 0 ->
       err = Some (mkError ("Tar exited with code "
                            +:+ code_toString (status run)))).
Proof.
  intros run stats.
  unfold returns, compressDirectory, spawn, fs_stat. fold run.
  destruct (status run) as [[|c|c]|] eqn:Hst; simpl.
  - eexists None, _. split; [intros cb; reflexivity|].
    split; [|congruence]. intros _. split; [reflexivity|].
    simpl. fold stats. split.
    + rewrite last_snoc. by destruct stats.
    + intros ->. by rewrite last_snoc.
  - eexists (Some _), _. split; [intros cb; reflexivity|].
    split; [discriminate|]. reflexivity.
  - eexists (Some _), _. split; [intros cb; reflexivity|].
    split; [discriminate|]. reflexivity.
  - eexists (Some _), _. split; [intros cb; reflexivity|].
    split; [discriminate|]. reflexivity.
Qed.

(** ** Stale artifacts and the next run *)

(** The archive names of two clock readings that differ in their
    millisecond time stamp differ. *)
Lemma getArchiveName_time_inj databaseName d1 d2 :
  getArchiveName databaseName d1 = getArchiveName databaseName d2 ->
  getTime d1 = getTime d2.
Proof.
  unfold getArchiveName, Js.join. simpl String.concat. norm_app.
  intros H. apply (inj _) in H. injection H as H.
  apply app_sep_inj in H as [_ H]; try by apply dec_differs.
  apply app_sep_inj in H as [_ H]; try by apply dec_differs.
  apply app_sep_inj in H as [_ H]; try by apply dec_differs.
  apply app_sep_inj in H as [H _]; try by apply dec_differs.
  by apply dec_inj.
Qed.

(** C3 at a failing input.  The first run leaves the dump directory and
    its archive.  The pre-clean of the second run removes the dump
    directory, but looks for an archive under the name computed from the
    new clock reading: the archive of the first run is still there when
    the dump has run, and after a second run that succeeds in every
    step. *)
Theorem stale_archive_survives_next_run :
  map_to_list (fs TwoRuns.after_first)
  = [ (TwoRuns.firstArchive, 1536); (TwoRuns.dumpFile, 2048);
      (TwoRuns.dumpDir, 4096) ]
  ∧ drop (length (trace TwoRuns.after_first))
         (trace TwoRuns.second_until_dump)
    = [ EExists TwoRuns.dumpDir true;
        EExec ("rm -rf " +:+ TwoRuns.dumpDir) None
              {[ TwoRuns.firstArchive := 1536 ]};
        EExists TwoRuns.secondArchive false;
        ESpawn "mongodump"
               [ "-h"; "localhost:27017"; "-d"; "shop"; "-o";
                 "/tmp/mongodb_s3_backup" ]%string
               None (Exited 1) {[ TwoRuns.firstArchive := 1536 ]} ]
  ∧ fs TwoRuns.second_until_dump = {[ TwoRuns.firstArchive := 1536 ]}
  ∧ commands (drop (length (trace TwoRuns.after_first))
                   (trace TwoRuns.second_complete))
    = [ "rm -rf " +:+ TwoRuns.dumpDir;
        "rm -rf " +:+ TwoRuns.dumpDir;
        "rm -rf " +:+ TwoRuns.secondArchive ]
  ∧ fs TwoRuns.second_complete = {[ TwoRuns.firstArchive := 1536 ]}.
Proof. compute_each. Qed.

(** ** Human-readable sizes *)

Lemma shl_1_40 : Js.shl 1 40 = 256.
Proof. reflexivity. Qed.

(** From 2^30 on, every size is divided by 256 and labelled TiB: the GiB
    branch is never taken. *)
Lemma friendlyFilesize_from_GiB bytes :
  2 ^ 30 <= bytes ->
  friendlyFilesize bytes = Js.div_toFixed1 bytes 256 +:+ " TiB".
Proof.
  intros H. unfold friendlyFilesize.
  change (Js.shl 1 10) with 1024. change (Js.shl 1 20) with 1048576.
  change (Js.shl 1 30) with 1073741824. change (Js.shl 1 40) with 256.
  change (2 ^ 30) with 1073741824 in H.
  destruct (Z.eqb_spec bytes 0); [lia|].
  destruct (Z.ltb_spec bytes 1024); [lia|].
  destruct (Z.ltb_spec bytes 1048576); [lia|].
  destruct (Z.ltb_spec bytes 1073741824); [lia|].
  destruct (Z.ltb_spec bytes 256); [lia|].
  reflexivity.
Qed.

(** Below 2^30 the units change at 2^10 and at 2^20. *)
Lemma friendlyFilesize_below_GiB bytes :
  (0 < bytes < 2 ^ 10 -> friendlyFilesize bytes = Js.dec bytes +:+ " B")
  ∧ (2 ^ 10 <= bytes < 2 ^ 20 ->
     friendlyFilesize bytes = Js.div_toFixed1 bytes (2 ^ 10) +:+ " KiB")
  ∧ (2 ^ 20 <= bytes < 2 ^ 30 ->
     friendlyFilesize bytes = Js.div_toFixed1 bytes (2 ^ 20) +:+ " MiB").
Proof.
  unfold friendlyFilesize.
  change (Js.shl 1 10) with 1024. change (Js.shl 1 20) with 1048576.
  change (Js.shl 1 30) with 1073741824. change (Js.shl 1 40) with 256.
  change (2 ^ 10) with 1024. change (2 ^ 20) with 1048576.
  change (2 ^ 30) with 1073741824.
  repeat split; intros H;
    destruct (Z.eqb_spec bytes 0); try lia;
    destruct (Z.ltb_spec bytes 1024); try lia; try reflexivity;
    destruct (Z.ltb_spec bytes 1048576); try lia; try reflexivity;
    destruct (Z.ltb_spec bytes 1073741824); try lia; reflexivity.
Qed.

(** C4 at a failing input, next to the three values the claim names: one
    GiB is rendered in TiB, as 2^30 / 256. *)
Theorem friendlyFilesize_one_GiB :
  friendlyFilesize 0 = "0 B"%string
  ∧ friendlyFilesize 1023 = "1023 B"%string
  ∧ friendlyFilesize 1536 = "1.5 KiB"%string
  ∧ friendlyFilesize (2 ^ 20) = "1.0 MiB"%string
  ∧ friendlyFilesize (2 ^ 30) = "4194304.0 TiB"%string
  ∧ friendlyFilesize (2 ^ 40) = "4294967296.0 TiB"%string.
Proof. compute_each. Qed.

(** ** The schedule *)

Lemma Number_dec z :
  0 <= z < 2 ^ 53 -> Script.Number (Some (Js.dec z)) = Some (Script.Int z).
Proof.
  intros [Hz Hlt]. destruct z as [|p|p]; [reflexivity| |lia].
  unfold Script.Number. rewrite dec_pos, NilEmpty.usu.
  unfold Z.of_uint. rewrite Unsigned.of_to. simpl Z.of_N.
  apply Z.ltb_lt in Hlt. by rewrite Hlt.
Qed.

Lemma nonempty_app_sep (a b : string) sep :
  String.eqb (a +:+ String sep b) "" = false.
Proof. destruct a; reflexivity. Qed.

Lemma nonempty_dec z : Path.nonempty (Js.dec z) = true.
Proof.
  unfold Path.nonempty. apply negb_true_iff, String.eqb_neq, dec_nonempty.
Qed.

Lemma uint_of_digits s :
  Js.all_chars is_digit s = true -> is_Some (NilEmpty.uint_of_string s).
Proof.
  induction s as [|c s IH]; simpl; [eauto|].
  intros [Hc Hs]%andb_true_iff. destruct (IH Hs) as [d ->].
  destruct c as [[] [] [] [] [] [] [] []]; try discriminate Hc; simpl; eauto.
Qed.

Lemma Number_digits s :
  Js.all_chars is_digit s = true -> digits_value s < 2 ^ 53 ->
  Script.Number (Some s) = Some (Script.Int (digits_value s)).
Proof.
  intros Hs Hlt. unfold Script.Number, digits_value in *.
  destruct (uint_of_digits s Hs) as [d Hd]. rewrite Hd in *.
  apply Z.ltb_lt in Hlt. by rewrite Hlt.
Qed.

Lemma format_d_digits rt s :
  Js.all_chars is_digit s = true -> digits_value s < 2 ^ 53 ->
  Script.format_d rt (Some s) = Js.dec (digits_value s).
Proof.
  intros Hs Hlt. unfold Script.format_d. by rewrite Number_digits.
Qed.

Lemma format_d_dec rt z :
  0 <= z < 2 ^ 53 -> Script.format_d rt (Some (Js.dec z)) = Js.dec z.
Proof. intros Hz. unfold Script.format_d. by rewrite Number_dec. Qed.

Lemma digits_differ_colon s :
  Js.all_chars is_digit s = true -> Js.all_chars (differs ":") s = true.
Proof. apply all_chars_impl, digit_differs. reflexivity. Qed.

(** For every daily time h:m the script puts [h] in the minute field and
    [m] in the hour field. *)
Lemma resolve_crontab_daily_time rt h m tz :
  0 <= h < 2 ^ 53 -> 0 <= m < 2 ^ 53 ->
  let expr := Js.dec h +:+ " " +:+ Js.dec m +:+ " * * *" in
  Script.resolve_crontab rt
    (Some (Script.mkCronConfig None (Some (Js.dec h +:+ ":" +:+ Js.dec m)) tz))
  = expr
  ∧ Script.daily_at m h expr.
Proof.
  intros Hh Hm expr. split.
  - unfold Script.resolve_crontab, Js.truthy, Js.or_default.
    cbn [Script.crontab Script.time].
    rewrite !app_cons, !app_nil, nonempty_app_sep. cbn [negb].
    rewrite split_app by (by apply dec_differs).
    rewrite split_no_sep by (by apply dec_differs).
    cbn [lookup list_lookup]. unfold Script.format_crontab.
    rewrite !format_d_dec by done. reflexivity.
  - unfold Script.daily_at, Script.cron_fields, expr.
    rewrite !app_cons, !app_nil.
    rewrite split_app by (by apply dec_differs).
    rewrite split_app by (by apply dec_differs).
    cbn [Js.split Ascii.eqb Bool.eqb List.filter].
    rewrite !nonempty_dec. reflexivity.
Qed.

(** C5 at a failing input.  For the daily time 3:15 the script builds
    ["3 15 * * *"]: the hour is in the minute field and the minute in the
    hour field, an expression that fires at 15:03 and not at 3:15. *)
Theorem daily_time_fields_swapped rt :
  let expr := "3 15 * * *"%string in
  Script.resolve_crontab rt
    (Some (Script.mkCronConfig None (Some "3:15"%string) None)) = expr
  ∧ Script.cron_fields expr = Some (Script.mkCronFields "3" "15" "*" "*" "*")
  ∧ Script.daily_at 15 3 expr
  ∧ ¬ Script.daily_at 3 15 expr.
Proof.
  intros expr. compute_each. intros H. vm_compute in H. discriminate H.
Qed.

(** C6.  The crontab of the configuration, when it is set, is the
    resolved expression, whatever the daily time.  Without it, a daily
    time that is set gives the expression derived from it: what [%d]
    prints for the part before the first colon, a space, what [%d] prints
    for the part after it, and the three stars; for two parts of decimal
    digits these are their numeric values.  Without either, and without
    a [cron] section at all, the expression is the default
    ["0 0 * * *"]. *)
Theorem crontab_precedence rt (cron : option Script.CronConfig) :
  Script.default_crontab = "0 0 * * *"%string
  ∧ match cron with
    | None => Script.resolve_crontab rt cron = "0 0 * * *"%string
    | Some c =>
        (∀ s, Script.crontab c = Some s -> s ≠ ""%string ->
              Script.resolve_crontab rt cron = s)
        ∧ (Js.truthy (Script.crontab c) = false ->
           ∀ t, Script.time c = Some t -> t ≠ ""%string ->
                let time := Js.split ":" t in
                let printed arg :=
                  match Script.Number arg, arg with
                  | Some n, _ => Script.Num_toString n
                  | None, Some s => Script.number_text rt s
                  | None, None => "NaN"%string
                  end in
                Script.resolve_crontab rt cron
                = printed (time !! 0%nat) +:+ " "
                  +:+ printed (time !! 1%nat) +:+ " * * *")
        ∧ (Js.truthy (Script.crontab c) = false ->
           ∀ a b, Script.time c = Some (a +:+ ":" +:+ b) ->
                  Js.all_chars is_digit a = true ->
                  Js.all_chars is_digit b = true ->
                  digits_value a < 2 ^ 53 -> digits_value b < 2 ^ 53 ->
                  Script.resolve_crontab rt cron
                  = Js.dec (digits_value a) +:+ " "
                    +:+ Js.dec (digits_value b) +:+ " * * *")
        ∧ (Js.truthy (Script.crontab c) = false ->
           Js.truthy (Script.time c) = false ->
           Script.resolve_crontab rt cron = "0 0 * * *"%string)
    end.
Proof.
  split; [reflexivity|].
  destruct cron as [c|]; [|reflexivity].
  unfold Script.resolve_crontab, Js.truthy, Js.or_default.
  split; [|split; [|split]].
  - intros s -> Hs. apply String.eqb_neq in Hs. by rewrite Hs.
  - intros Hc t -> Ht. rewrite Hc.
    apply String.eqb_neq in Ht. rewrite Ht. reflexivity.
  - intros Hc a b -> Ha Hb Hva Hvb. rewrite Hc.
    rewrite !app_cons, !app_nil, nonempty_app_sep. cbn [negb].
    rewrite split_app by (by apply digits_differ_colon).
    rewrite split_no_sep by (by apply digits_differ_colon).
    cbn [lookup list_lookup]. unfold Script.format_crontab.
    by rewrite !format_d_digits.
  - intros Hc Ht. by rewrite Hc, Ht.
Qed.

(** ** The cleaner and the shell *)

Lemma plain_differs_space c : Host.plain c = true -> differs " " c = true.
Proof.
  intros Hc. unfold differs. apply negb_true_iff.
  destruct (Ascii.eqb_spec c " ") as [->|]; [discriminate Hc|done].
Qed.

Lemma plain_or_space s :
  Js.all_chars Host.plain s = true ->
  Js.all_chars (fun c => (Host.plain c || Ascii.eqb c " ")%bool) s = true.
Proof. apply all_chars_impl. intros c ->. reflexivity. Qed.

(** The shell passes a target of plain characters to [rm] as one word. *)
Lemma sh_words_rm_plain target :
  Js.all_chars Host.plain target = true -> target ≠ ""%string ->
  Host.sh_words ("rm -rf " +:+ target) = Some ["rm"; "-rf"; target]%string.
Proof.
  intros Hp Hne. unfold Host.sh_words.
  rewrite all_chars_app, (plain_or_space _ Hp).
  rewrite !app_cons, !app_nil.
  change (Js.all_chars _ "rm -rf ") with true. cbn [andb].
  cbn [Js.split Ascii.eqb Bool.eqb].
  rewrite split_no_sep by (eapply all_chars_impl; [apply plain_differs_space|done]).
  cbn [List.filter Path.nonempty String.eqb negb].
  apply String.eqb_neq in Hne. unfold Path.nonempty. rewrite Hne. reflexivity.
Qed.

(** A target with a space between two plain parts reaches [rm] as two
    words, neither of which is the target. *)
Lemma sh_words_rm_space a b :
  Js.all_chars Host.plain a = true -> Js.all_chars Host.plain b = true ->
  a ≠ ""%string -> b ≠ ""%string ->
  let target := a +:+ " " +:+ b in
  Host.sh_words ("rm -rf " +:+ target) = Some ["rm"; "-rf"; a; b]%string
  ∧ a ≠ target ∧ b ≠ target.
Proof.
  intros Ha Hb Hna Hnb target.
  assert (Hsp : Js.all_chars Host.plain target = false).
  { unfold target. rewrite all_chars_app, Ha. reflexivity. }
  split; [|split; intros E; rewrite <- E in Hsp; congruence].
  unfold Host.sh_words, target.
  rewrite !all_chars_app, (plain_or_space _ Ha).
  rewrite !app_cons, !app_nil. cbn [Js.all_chars].
  rewrite (plain_or_space _ Hb).
  change (Js.all_chars _ "rm -rf ") with true. cbn [andb Ascii.eqb Bool.eqb].
  cbn [Js.split Ascii.eqb Bool.eqb]. 
  rewrite split_app by (eapply all_chars_impl; [apply plain_differs_space|done]).
  rewrite split_no_sep by (eapply all_chars_impl; [apply plain_differs_space|done]).
  cbn [List.filter Path.nonempty String.eqb negb].
  apply String.eqb_neq in Hna, Hnb. unfold Path.nonempty. rewrite Hna, Hnb.
  reflexivity.
Qed.

Lemma prefix_app_differs (a x y : string) c d :
  c ≠ d -> String.prefix (a +:+ String c x) (a +:+ String d y) = false.
Proof.
  intros Hcd. induction a as [|h a IH]; rewrite ?app_cons, ?app_nil; simpl.
  - destruct (ascii_dec c d); [done|reflexivity].
  - destruct (ascii_dec h h); [exact IH|done].
Qed.

(** On the host, a target of plain characters is removed as asked: the
    target and what lies under it go, and nothing else. *)
Lemma removeRF_plain_target tmp dump_code tar_code upload target w :
  Js.all_chars Host.plain target = true -> target ≠ ""%string ->
  is_Some (fs w !! target) ->
  ∃ w', returns (removeRF (Host.env tmp true dump_code tar_code upload) target)
                w None w'
        ∧ fs w' = filter (fun kv => Host.under target kv.1 = false) (fs w)
        ∧ fs w' !! target = None.
Proof.
  intros Hp Hne [sz Hsz]. eexists. split; [|split].
  - intros cb. unfold removeRF, fs_exists, exec. rewrite Hsz.
    cbn [negb sh Host.env Host.sh]. unfold Host.sh.
    rewrite (sh_words_rm_plain _ Hp Hne). reflexivity.
  - reflexivity.
  - cbn [fs emit with_fs Host.rm_rf fold_left].
    apply map_lookup_filter_None. right. intros x _. cbn [fst].
    unfold Host.under. by rewrite String.eqb_refl.
Qed.

(** On the host, for a target with a space between two plain parts,
    [rm] is told to remove the two parts; the target itself stays
    unless it lies under the second part. *)
Lemma removeRF_spaced_target tmp dump_code tar_code upload a b w :
  Js.all_chars Host.plain a = true -> Js.all_chars Host.plain b = true ->
  a ≠ ""%string -> b ≠ ""%string ->
  let target := a +:+ " " +:+ b in
  is_Some (fs w !! target) -> Host.under b target = false ->
  ∃ w', returns (removeRF (Host.env tmp true dump_code tar_code upload) target)
                w None w'
        ∧ fs w' = Host.rm_rf [a; b] (fs w)
        ∧ fs w' !! target = fs w !! target.
Proof.
  intros Ha Hb Hna Hnb target [sz Hsz] Hub.
  destruct (sh_words_rm_space a b Ha Hb Hna Hnb) as (Hwords & Hat & Hbt).
  fold target in Hwords, Hat, Hbt.
  eexists. split; [|split].
  - intros cb. unfold removeRF, fs_exists, exec. rewrite Hsz.
    cbn [negb sh Host.env Host.sh]. unfold Host.sh.
    rewrite Hwords. reflexivity.
  - reflexivity.
  - cbn [fs emit with_fs Host.rm_rf fold_left]. rewrite Hsz.
    apply map_lookup_filter_Some. split; [|exact Hub].
    apply map_lookup_filter_Some. split; [exact Hsz|].
    cbn [fst]. unfold Host.under.
    apply String.eqb_neq in Hat. rewrite Hat. cbn [orb].
    unfold target. rewrite app_cons, app_nil.
    by apply prefix_app_differs.
Qed.

(** C10 at a failing input.  [removeRF] pastes the target into the
    command line, and the shell splits the line at the space: [rm]
    receives two paths, neither of them the target.  The target is
    still there afterwards, another directory and its content are gone,
    and the callback gets no error. *)
Theorem removeRF_target_split_by_shell :
  commands (trace Spaces.after) = [ "rm -rf /tmp/mongodb_s3_backup/my shop"%string ]
  ∧ Host.sh_words "rm -rf /tmp/mongodb_s3_backup/my shop"
    = Some [ "rm"; "-rf"; "/tmp/mongodb_s3_backup/my"; "shop" ]%string
  ∧ fs Spaces.before !! Spaces.target = Some 4096
  ∧ fs Spaces.after !! Spaces.target = Some 4096
  ∧ fs Spaces.before !! Spaces.other = Some 4096
  ∧ fs Spaces.after !! Spaces.other = None
  ∧ fs Spaces.after !! Spaces.otherFile = None
  ∧ returns (removeRF Spaces.env Spaces.target) Spaces.before None Spaces.after.
Proof.
  compute_each. intros cb. vm_compute. reflexivity.
Qed.

(** * Further properties of the library *)

(** ** Archive names *)

(** Splitting at the last separator. *)
Lemma app_last_sep_inj sep a a' r r' :
  Js.all_chars (differs sep) r = true ->
  Js.all_chars (differs sep) r' = true ->
  a +:+ String sep r = a' +:+ String sep r' -> a = a' ∧ r = r'.
Proof.
  intros Hr Hr'. revert a'.
  induction a as [|c a IH]; intros [|c' a']; rewrite ?app_cons, ?app_nil.
  - intros [= ->]. done.
  - intros [= <- ->]. rewrite all_chars_app in Hr.
    apply andb_true_iff in Hr as [_ Hr]. simpl in Hr.
    unfold differs in Hr. by rewrite Ascii.eqb_refl in Hr.
  - intros [= -> <-]. rewrite all_chars_app in Hr'.
    apply andb_true_iff in Hr' as [_ Hr']. simpl in Hr'.
    unfold differs in Hr'. by rewrite Ascii.eqb_refl in Hr'.
  - intros [= -> H]. destruct (IH _ H) as [-> ->]. done.
Qed.

Lemma getArchiveName_shape databaseName date :
  getArchiveName databaseName date
  = (((databaseName +:+ String "_" (Js.dec (getFullYear date)))
        +:+ String "_" (Js.dec (getMonth date + 1)))
       +:+ String "_" (Js.dec (getDate date)))
      +:+ String "_" (Js.dec (getTime date) +:+ ".tar.gz").
Proof.
  unfold getArchiveName, Js.join. simpl String.concat. norm_app. reflexivity.
Qed.

Lemma dec_then_differs sep z (tail : string) :
  is_digit_or_minus sep = false ->
  Js.all_chars (differs sep) tail = true ->
  Js.all_chars (differs sep) (Js.dec z +:+ tail) = true.
Proof.
  intros Hsep Ht. rewrite all_chars_app, (dec_differs _ _ Hsep), Ht. done.
Qed.

(** X1.  The archive name tells the database and the clock reading apart:
    two names are equal only for the same database name and the same
    year, month, day and millisecond time stamp. *)
Theorem getArchiveName_inj db1 d1 db2 d2 :
  getArchiveName db1 d1 = getArchiveName db2 d2 ↔ db1 = db2 ∧ d1 = d2.
Proof.
  split; [|by intros [-> ->]].
  rewrite !getArchiveName_shape. intros H.
  apply app_last_sep_inj in H as [H Ht];
    [|by apply dec_then_differs|by apply dec_then_differs].
  apply app_last_sep_inj in H as [H Hd]; [|by apply dec_differs..].
  apply app_last_sep_inj in H as [H Hm]; [|by apply dec_differs..].
  apply app_last_sep_inj in H as [H Hy]; [|by apply dec_differs..].
  apply (app_sep_inj ".") in Ht as [Ht _]; [|by apply dec_differs..].
  apply dec_inj in Ht, Hd, Hm, Hy.
  split; [exact H|].
  destruct d1, d2; simpl in *. f_equal; lia.
Qed.

(** ** The cleaner and the dump invoker *)

(** X2.  [removeRF] calls back exactly once.  For a path that does not
    exist it succeeds without running any command: nothing is logged, the
    file system is as before.  For a path that exists it logs one warning
    and runs the one command [rm -rf] followed by the path; the error of
    that command, or none, goes to the callback as it is, and the file
    system is the one the command left. *)
Theorem removeRF_runs_rm_only_if_exists env target w :
  ∃ err w',
    returns (removeRF env target) w err w'
    ∧ match fs w !! target with
      | None =>
          err = None ∧ fs w' = fs w ∧ logs w' = logs w
          ∧ drop (length (trace w)) (trace w') = [EExists target false]
      | Some _ =>
          logs w' = logs w ++ [(Winston.warn, "Removing " +:+ target)]
          ∧ ∃ w1, (err, fs w') = sh env ("rm -rf " +:+ target) w1
                  ∧ fs w1 = fs w ∧ clock w1 = clock w
                  ∧ logs w1 = logs w ++ [(Winston.warn, "Removing " +:+ target)]
                  ∧ trace w1 = trace w ++ [EExists target true]
                  ∧ drop (length (trace w)) (trace w')
                    = [EExists target true;
                       EExec ("rm -rf " +:+ target) err (fs w')]
      end.
Proof.
  unfold returns, removeRF, fs_exists, exec.
  destruct (fs w !! target) as [sz|] eqn:Hlook; cbn [negb].
  - set (w1 := winston Winston.warn ("Removing " +:+ target)
                 (emit (EExists target true) w)).
    destruct (sh env ("rm -rf " +:+ target) w1) as [err f] eqn:Hsh.
    exists err, (emit (EExec ("rm -rf " +:+ target) err f) (with_fs f w1)).
    split; [intros cb; reflexivity|].
    split; [reflexivity|].
    exists w1. rewrite Hsh. cbn.
    repeat (split; [reflexivity|]).
    by rewrite <- app_assoc, drop_app_length.
  - exists None, (emit (EExists target false) w).
    split; [intros cb; reflexivity|].
    cbn. repeat (split; [reflexivity|]). by rewrite drop_app_length.
Qed.



(** ** The archiver and the orchestrator *)




(** Every event of a run belongs to a step of the plan. *)
Lemma step_events_belong s err evs :
  step_events s err evs -> Forall (fun ev => belongs ev s) evs.
Proof.
  destruct 1; repeat constructor; cbn; eauto.
Qed.

Lemma run_events_belong steps err evs :
  run_events steps err evs ->
  Forall (fun ev => ∃ s, s ∈ steps ∧ belongs ev s) evs.
Proof.
  induction 1 as [|s ss evs1 err evs2 Hs _ IH|s ss e evs Hs].
  - constructor.
  - apply Forall_app. split.
    + apply step_events_belong in Hs.
      eapply Forall_impl; [exact Hs|]. intros ev Hev. exists s.
      split; [left|done].
    + eapply Forall_impl; [exact IH|]. intros ev (s' & Hin & Hev).
      exists s'. split; [by right|done].
  - apply step_events_belong in Hs.
    eapply Forall_impl; [exact Hs|]. intros ev Hev. exists s.
    split; [left|done].
Qed.

(** X6.  A run of [sync] calls nothing but this: it checks and removes
    the dump directory and the archive (the only shell commands are
    [rm -rf] of these two paths), runs [mongodump] with the dump
    arguments, runs [tar] in the temporary directory on the database
    name, stats the archive and uploads it to the key made of the
    destination and the archive name.  The archive that is statted,
    uploaded and removed is one and the same path. *)
Theorem sync_touches_only_its_paths env cfg s3 w :
  let archiveName := getArchiveName (db cfg) (clock w) in
  let backupDir := Path.join (tmpDir env) (db cfg) in
  let archive := Path.join (tmpDir env) archiveName in
  ∃ err w' evs,
    returns (sync env cfg s3) w err w'
    ∧ trace w' = trace w ++ evs
    ∧ Forall (fun ev =>
        match ev with
        | EExists path _ => path = backupDir ∨ path = archive
        | EExec command _ _ =>
            command = "rm -rf " +:+ backupDir ∨ command = "rm -rf " +:+ archive
        | ESpawn program args cwd _ _ =>
            (program = "mongodump"%string
             ∧ args = mongoOptions cfg (tmpDir env) ∧ cwd = None)
            ∨ (program = "tar"%string
               ∧ args = [ "-zcf"%string; archiveName; db cfg ]
               ∧ cwd = Some (tmpDir env))
        | EStat path _ => path = archive
        | EPutFile b src dst _ =>
            b = bucket s3 ∧ src = archive
            ∧ dst = Path.join (Js.or_default (destination s3) "/") archiveName
        | ECallback _ => False
        end) evs.
Proof.
  intros archiveName backupDir archive.
  destruct (sync_run env cfg s3 w) as (err & w' & evs & Hret & _ & Htr & _ & Hrun).
  exists err, w', evs. split; [exact Hret|]. split; [exact Htr|].
  apply run_events_belong in Hrun.
  eapply Forall_impl; [exact Hrun|]. clear Hrun.
  intros ev (s & Hin & Hev). unfold plan in Hin.
  fold archiveName backupDir archive in Hin.
  repeat (apply elem_of_cons in Hin as [->|Hin]);
    try (by apply elem_of_nil in Hin);
    destruct ev; cbn in Hev;
    repeat match goal with
           | H : ∃ _, _ |- _ => destruct H
           | H : _ ∧ _ |- _ => destruct H
           end;
    try discriminate; simplify_eq; eauto 6.
Qed.

(** * Properties of the command line script *)

(** X9.  A daily time made of two strings of digits around a colon
    resolves to the expression with the numeric values of the two parts,
    in the order they are written: leading zeros are dropped and an
    empty part counts as 0. *)
Theorem crontab_from_time_parts rt a b tz :
  Js.all_chars is_digit a = true -> Js.all_chars is_digit b = true ->
  digits_value a < 2 ^ 53 -> digits_value b < 2 ^ 53 ->
  Script.resolve_crontab rt
    (Some (Script.mkCronConfig None (Some (a +:+ ":" +:+ b)) tz))
  = Js.dec (digits_value a) +:+ " " +:+ Js.dec (digits_value b)
    +:+ " * * *".
Proof.
  intros Ha Hb Hva Hvb.
  unfold Script.resolve_crontab, Js.truthy, Js.or_default.
  cbn [Script.crontab Script.time].
  rewrite !app_cons, !app_nil, nonempty_app_sep. cbn [negb].
  rewrite split_app by (by apply digits_differ_colon).
  rewrite split_no_sep by (by apply digits_differ_colon).
  cbn [lookup list_lookup]. unfold Script.format_crontab.
  rewrite !format_d_digits by done. reflexivity.
Qed.

Lemma crontab_from_time_parts_witness :
  Js.all_chars is_digit "08" = true ∧ Js.all_chars is_digit "" = true
  ∧ digits_value "08" < 2 ^ 53 ∧ digits_value "" < 2 ^ 53
  ∧ Script.resolve_crontab Host.runtime
    (Some (Script.mkCronConfig None (Some ("08" +:+ ":" +:+ "")) None))
  = Js.dec (digits_value "08") +:+ " " +:+ Js.dec (digits_value "")
    +:+ " * * *".
Proof.
  repeat (split; [vm_compute; reflexivity|]).
  apply (crontab_from_time_parts Host.runtime "08" "" None);
    vm_compute; reflexivity.
Defined.

(** X10.  A daily time that is a string of digits without a colon
    resolves to an expression whose second field is [NaN]. *)
Theorem crontab_from_time_without_colon rt t tz :
  Js.all_chars is_digit t = true -> t ≠ ""%string -> digits_value t < 2 ^ 53 ->
  Script.resolve_crontab rt (Some (Script.mkCronConfig None (Some t) tz))
  = Js.dec (digits_value t) +:+ " NaN * * *".
Proof.
  intros Ht Hne Hv.
  unfold Script.resolve_crontab, Js.truthy, Js.or_default.
  cbn [Script.crontab Script.time].
  apply String.eqb_neq in Hne. rewrite Hne. cbn [negb].
  rewrite split_no_sep by (by apply digits_differ_colon).
  cbn [lookup list_lookup]. unfold Script.format_crontab.
  rewrite format_d_digits by done. reflexivity.
Qed.

Lemma crontab_from_time_without_colon_witness :
  Js.all_chars is_digit "5" = true ∧ "5"%string ≠ ""%string
  ∧ digits_value "5" < 2 ^ 53
  ∧ Script.resolve_crontab Host.runtime
      (Some (Script.mkCronConfig None (Some "5"%string) None))
    = Js.dec (digits_value "5") +:+ " NaN * * *".
Proof.
  split; [vm_compute; reflexivity|]. split; [discriminate|].
  split; [vm_compute; reflexivity|].
  apply (crontab_from_time_without_colon Host.runtime "5" None);
    [vm_compute; reflexivity|discriminate|vm_compute; reflexivity].
Defined.

(** X7.  Started with one argument and [--now], the script runs [sync]
    once and always ends the process: with code 0 exactly when no step
    of the run failed, with code 1 otherwise.  The last log line is the
    success or failure line of the run. *)
Theorem main_now_exit_code env rt arg dir ld rq w :
  let config := ld (Main.resolve dir arg) in
  let cfg := Script.mongodb config in
  ∃ err w' evs,
    Main.main env rt (Main.mkInvocation [arg] true dir ld rq) w
    = Main.ProcessExit (match err with Some _ => 1 | None => 0 end) w'
    ∧ trace w' = trace w ++ evs ++ [ECallback err]
    ∧ run_events (plan env cfg (Script.s3 config)
                       (getArchiveName (db cfg) (clock w))) err evs
    ∧ (err = None ↔ Forall quiet evs)
    ∧ last (logs w')
      = Some match err with
             | None => (Winston.info, "Successfully backed up " +:+ db cfg)
             | Some e => (Winston.error,
                          "Failed during sync: Error: " +:+ message e)
             end.
Proof.
  intros config cfg. unfold Main.main. cbn [Main.argv Main.now Main.cwd Main.load].
  fold config. fold cfg.
  set (w0 := winston Winston.info _ w).
  destruct (series_run _ _
              (sync_tasks_perform env cfg (Script.s3 config)
                 (getArchiveName (db cfg) (clock w0))) w0)
    as (err & w1 & evs & Hret & Htr & _ & Hrun).
  assert (Hquiet : err = None ↔ Forall quiet evs).
  { pose proof (run_events_failure _ _ _ Hrun) as Hf. destruct err as [e|].
    - split; [discriminate|]. intros Hall.
      destruct Hf as (pre & ev & -> & _ & Hev).
      rewrite Forall_app, Forall_singleton in Hall.
      destruct Hall as [_ Hall]. unfold quiet in Hall.
      rewrite Hev in Hall. discriminate Hall.
    - done. }
  change (trace w0) with (trace w) in Htr.
  change (clock w0) with (clock w) in Hrun.
  pose proof (run_events_callbacks _ _ _ Hrun) as Hcb. unfold callbacks in Hcb.
  exists err. unfold sync. rewrite Hret.
  destruct err as [e|];
    (eexists _, evs; unfold recording, callbacks;
     cbn [or_noop trace emit winston logs];
     change (trace w0) with (trace w);
     rewrite Htr, <- app_assoc, drop_app_length, omap_app, Hcb;
     cbn [omap list_omap app];
     split; [reflexivity|]; split; [cbn; by rewrite Htr, <- app_assoc|];
     split; [exact Hrun|]; split; [exact Hquiet|];
     cbn [logs emit winston]; by rewrite last_snoc).
Qed.

Ltac schedule_leaf :=
  match goal with
  | |- context [Script.cron_accepts ?rt ?c ?z] =>
      destruct (Script.cron_accepts rt c z) eqn:Hacc
  end;
  cbn; rewrite <- ?app_assoc; repeat (split; [done|]);
  first [done | by intros [? ?]].

(** X8.  Started with one argument and without [--now]: when the cron
    package takes the resolved expression and the zone, the job is
    scheduled with them, in the configured time zone when the time
    module loads and in America/New_York when no zone is configured, and
    the success line is logged last; when the cron package rejects them,
    nothing is scheduled and the success line is not logged; a
    configured zone without the time module ends the process with code 1
    and schedules nothing.  Starting up runs no backup. *)
Theorem main_schedule_time_zone env rt arg dir ld rq w :
  schedule_outcome env rt (ld (Main.resolve dir arg)) (Main.resolve dir arg)
    rq w (Main.main env rt (Main.mkInvocation [arg] false dir ld rq) w).
Proof.
  unfold schedule_outcome, configured_zone, Main.main.
  cbn [Main.argv Main.now Main.cwd Main.load Main.require_time].
  set (config := ld (Main.resolve dir arg)).
  remember (Script.resolve_crontab rt (Script.cron config)) as crontab eqn:Hc.
  clear Hc.
  destruct (Script.cron config) as [c|]; [|schedule_leaf].
  unfold Js.truthy, Js.or_default.
  destruct (Script.timezone c) as [tz|]; [|schedule_leaf].
  destruct (String.eqb tz "") eqn:Etz; cbn [negb]; [schedule_leaf|].
  destruct rq as [e|]; [|schedule_leaf].
  cbn. split; [done|]. split; [eauto|]. split; [eauto|].
  split; [done|]. split; [done|].
  rewrite <- !app_assoc, drop_app_length. intros Hin.
  repeat (apply elem_of_cons in Hin as [Hin|Hin]; [discriminate Hin|]).
  by apply elem_of_nil in Hin.
Qed.
